(** * claude-sheets-api: the request pipeline of the Claude Code endpoint

  A shallow embedding of
    - lib/rate-limiter  ([RateLimiter]: sliding-window admission),
    - lib/auth          ([validateAuth], [generateClientId]),
    - lib/claude-wrapper ([ClaudeWrapper]: prompt building, retry loop,
                          output parsing),
    - app/api/claude-code/route ([POST], [validateRequest]),
  followed by the properties of the specification that concern them.

  Conventions of the embedding.
    - A JavaScript string is a [string]; each character stands for one
      UTF-16 code unit in the range 0..255.
    - Millisecond timestamps and integral configuration values are [Z].
    - [Date.now()], the environment, the file system and the child process
      are inputs of the functions that consult them.
    - A rejected promise / thrown [Error] is the [inr] of a sum carrying
      the error's [message]. *)

From Stdlib Require Import Ascii String ZArith NArith QArith.
From stdpp Require Import gmap strings list pretty.

Local Open Scope Z_scope.
Local Open Scope string_scope.

(** ** JavaScript numbers that may be [Infinity] *)

(** [Math.min()] of no argument is [Infinity]; the limiter can produce it
  when [MAX_REQUESTS] is not positive, so reset times live in this type. *)
Inductive jsnum : Type :=
| Fin (z : Z)
| PosInf.

Definition jsnum_add (a : jsnum) (z : Z) : jsnum :=
match a with
| Fin x => Fin (x + z)
| PosInf => PosInf
end.

Definition jsnum_min (a b : jsnum) : jsnum :=
match a, b with
| Fin x, Fin y => Fin (Z.min x y)
| Fin x, PosInf => Fin x
| PosInf, _ => b
end.

Definition jsnum_max (a b : jsnum) : jsnum :=
match a, b with
| Fin x, Fin y => Fin (Z.max x y)
| _, _ => PosInf
end.

(** [Math.min(...xs)] *)
Definition Math_min (xs : list Z) : jsnum :=
foldr (fun x acc => jsnum_min (Fin x) acc) PosInf xs.

(** ** lib/rate-limiter *)

Module RateLimiter.

(** [RATE_LIMITS] of lib/constants (read from the environment). *)
Record RATE_LIMITS : Type := {
  WINDOW_MS : Z;
  MAX_REQUESTS : Z;
  SKIP_SUCCESS : bool
}.

Record RateLimitResult : Type := {
  allowed : bool;
  remaining : Z;
  resetTime : jsnum
}.

(** [private requests: Map<string, number[]>] *)
Abbreviation store := (gmap string (list Z)).

(** [timestamp => timestamp > windowStart] *)
Definition in_window (windowStart : Z) (l : list Z) : list Z :=
  filter (fun timestamp => windowStart < timestamp) l.

(** [async check(clientId)]; [now] is the value of [Date.now()].  The body
    has no [await], so it runs without interleaving. *)
Definition check (cfg : RATE_LIMITS) (now : Z) (clientId : string)
    (requests : store) : RateLimitResult * store :=
  let windowStart := now - WINDOW_MS cfg in
  let clientRequests := default [] (requests !! clientId) in
  let clientRequests := in_window windowStart clientRequests in
  if bool_decide (MAX_REQUESTS cfg <= Z.of_nat (length clientRequests)) then
    let oldestRequest := Math_min clientRequests in
    let resetTime := jsnum_add oldestRequest (WINDOW_MS cfg - now) in
    ({| allowed := false;
        remaining := 0;
        resetTime := jsnum_max resetTime (Fin 0) |},
     requests)
  else
    let clientRequests := (clientRequests ++ [now])%list in
    ({| allowed := true;
        remaining := MAX_REQUESTS cfg - Z.of_nat (length clientRequests);
        resetTime := Fin (WINDOW_MS cfg) |},
     <[clientId := clientRequests]> requests).

(** [recordSuccess(clientId)]: [pop()] drops the last element of the stored
    array in place. *)
Definition recordSuccess (cfg : RATE_LIMITS) (clientId : string)
    (requests : store) : store :=
  if SKIP_SUCCESS cfg then
    let clientRequests := default [] (requests !! clientId) in
    if bool_decide (0 < length clientRequests)%nat then
      <[clientId := removelast clientRequests]> requests
    else requests
  else requests.

(** [private cleanup()] *)
Definition cleanup (cfg : RATE_LIMITS) (now : Z) (requests : store) : store :=
  let windowStart := now - WINDOW_MS cfg in
  omap (fun reqs =>
          let validRequests := in_window windowStart reqs in
          if bool_decide (length validRequests = 0%nat) then None
          else Some validRequests)
       requests.

(** A run of [check] calls of one client at the given clock readings,
    threading the store; the decisions come back in call order. *)
Fixpoint checks (cfg : RATE_LIMITS) (clientId : string) (times : list Z)
    (requests : store) : list RateLimitResult * store :=
  match times with
  | [] => ([], requests)
  | now :: rest =>
      let '(r, requests) := check cfg now clientId requests in
      let '(rs, requests) := checks cfg clientId rest requests in
      (r :: rs, requests)
  end.

(** A run of [check] calls, each with its client and clock reading: every
    call is listed with its decision and the store it leaves behind. *)
Fixpoint history (cfg : RATE_LIMITS) (calls : list (string * Z))
    (requests : store) : list (string * Z * RateLimitResult * store) :=
  match calls with
  | [] => []
  | (clientId, now) :: rest =>
      let '(r, requests) := check cfg now clientId requests in
      (clientId, now, r, requests) :: history cfg rest requests
  end.

(** The bucket of a client: [this.requests.get(clientId) || []]. *)
Definition bucket (requests : store) (clientId : string) : list Z :=
  default [] (requests !! clientId).

(** The timestamps of [l] that are not older than [now - W]: those of the
    trailing window of width [W], its far end included. *)
Definition not_older (cfg : RATE_LIMITS) (now : Z) (l : list Z) : list Z :=
  filter (fun timestamp => now - WINDOW_MS cfg <= timestamp) l.

(** [getStats()]: the number of clients with a bucket and the number of
    stored timestamps. *)
Definition getStats (requests : store) : nat * nat :=
  (size requests,
   map_fold (fun _ reqs totalRequests => (totalRequests + length reqs)%nat)
     0%nat requests).

End RateLimiter.

(** ** String primitives of the JavaScript runtime *)

Module JsString.

Definition code (c : ascii) : N := N_of_ascii c.

(** White space as matched by [\s] and stripped by [trim()], among the
    code units 0..255: TAB, LF, VT, FF, CR, SP and NBSP. *)
Definition is_space (c : ascii) : bool :=
  let n := code c in
  ((9 <=? n) && (n <=? 13) || (n =? 32) || (n =? 160))%N.

(** [\d] *)
Definition is_digit (c : ascii) : bool :=
  let n := code c in ((48 <=? n) && (n <=? 57))%N.

Definition is_upper (c : ascii) : bool :=
  let n := code c in ((65 <=? n) && (n <=? 90))%N.

Definition is_lower (c : ascii) : bool :=
  let n := code c in ((97 <=? n) && (n <=? 122))%N.

(** [\w] *)
Definition is_word (c : ascii) : bool :=
  is_upper c || is_lower c || is_digit c || (code c =? 95)%N.

Definition lower_char (c : ascii) : ascii :=
  let n := code c in
  if is_upper c
     || ((192 <=? n) && (n <=? 222) && negb (n =? 215))%N
  then ascii_of_N (n + 32) else c.

(** [s.toLowerCase()] *)
Fixpoint toLowerCase (s : string) : string :=
  match s with
  | EmptyString => EmptyString
  | String c r => String (lower_char c) (toLowerCase r)
  end.

Fixpoint trimStart (s : string) : string :=
  match s with
  | EmptyString => EmptyString
  | String c r => if is_space c then trimStart r else s
  end.

Fixpoint trimEnd (s : string) : string :=
  match s with
  | EmptyString => EmptyString
  | String c r =>
      match trimEnd r with
      | EmptyString => if is_space c then EmptyString else String c EmptyString
      | r' => String c r'
      end
  end.

(** [s.trim()] *)
Definition trim (s : string) : string := trimEnd (trimStart s).

(** [s.startsWith(p)] *)
Definition startsWith (s p : string) : bool := String.prefix p s.

(** [s.includes(p)] *)
Fixpoint includes (s p : string) : bool :=
  String.prefix p s ||
  match s with
  | EmptyString => false
  | String _ r => includes r p
  end.

(** [s.substring(n)] *)
Fixpoint substring_from (n : nat) (s : string) : string :=
  match n, s with
  | O, _ => s
  | S k, String _ r => substring_from k r
  | S _, EmptyString => EmptyString
  end.

Definition LF : ascii := ascii_of_N 10.
Definition nl : string := String LF EmptyString.

(** The double-quote character as a one-character string. *)
Definition dq : string := String (ascii_of_N 34) EmptyString.

(** [s.split('\n')]: never empty, [''.split('\n')] is [['']]. *)
Fixpoint split_lines (s : string) : list string :=
  match s with
  | EmptyString => [EmptyString]
  | String c r =>
      if Ascii.eqb c LF then EmptyString :: split_lines r
      else match split_lines r with
           | l :: ls => String c l :: ls
           | [] => [String c EmptyString]
           end
  end.

(** [lines.join('\n')] *)
Definition join_lines (lines : list string) : string :=
  String.concat nl lines.

(** The truth value of a string in a condition. *)
Definition truthy (s : string) : bool := negb (String.eqb s "").

Definition truthy_opt (o : option string) : bool :=
  match o with
  | Some s => truthy s
  | None => false
  end.

(** [a || b] on strings that may be [null]/[undefined]. *)
Definition or_else (o : option string) (d : string) : string :=
  match o with
  | Some s => if truthy s then s else d
  | None => d
  end.

(** The text of an integer inside a template literal. *)
Definition of_Z (z : Z) : string := pretty z.

End JsString.

(** ** lib/claude-wrapper *)

Module ClaudeWrapper.
Import JsString.

(** [CLAUDE_CONFIG] of lib/constants (read from the environment). *)
Record CLAUDE_CONFIG : Type := {
  TIMEOUT : Z;
  MAX_RETRIES : Z;
  MODEL : string;
  AUTH_METHOD : string
}.

(** The [options] member of a request. *)
Record ExecutionFlags : Type := {
  includeTests : option bool;
  includeComments : option bool;
  codeStyle : option string;
  maxTokens : option Q
}.

Definition no_flags : ExecutionFlags :=
  {| includeTests := None; includeComments := None;
     codeStyle := None; maxTokens := None |}.

Record ClaudeExecutionOptions : Type := {
  action : string;
  prompt : string;
  language : option string;
  framework : option string;
  options : option ExecutionFlags
}.

Record ClaudeExecutionResult : Type := {
  code : option string;
  analysis : option string;
  suggestions : option (list string);
  explanation : option string
}.

Definition empty_result : ClaudeExecutionResult :=
  {| code := None; analysis := None; suggestions := None;
     explanation := None |}.

(** *** formatPrompt *)

Definition flag_set (f : ExecutionFlags -> option bool)
    (o : option ExecutionFlags) : bool :=
  match o with
  | Some fl => default false (f fl)
  | None => false
  end.

Definition formatPrompt (o : ClaudeExecutionOptions) : string :=
  let metadata :=
    ((if truthy_opt (language o)
      then [("Language: " ++ default "" (language o))%string] else []) ++
     (if truthy_opt (framework o)
      then [("Framework: " ++ default "" (framework o))%string] else []))%list in
  let prompt :=
    if bool_decide (0 < length metadata)%nat
    then join_lines metadata ++ nl ++ nl ++ prompt o
    else prompt o in
  let instructions :=
    ((if flag_set includeTests (options o)
      then ["Please include unit tests."] else []) ++
     (if flag_set includeComments (options o)
      then ["Please include detailed comments."] else []) ++
     (if bool_decide ((options o ≫= codeStyle) = Some "modern")
      then ["Use modern language features and best practices."]
      else []))%list in
  if bool_decide (0 < length instructions)%nat
  then prompt ++ nl ++ nl ++ join_lines instructions
  else prompt.

(** *** buildCommandAndPrompt *)

(** [actionPrompts[action] || actionPrompts.generate]; [action] is one of
    the four names by the time it gets here, any other name is given the
    prompt of generate. *)
Definition actionPrompt (action : string) : string :=
  if String.eqb action "generate"
  then "Generate code based on the following requirements:"
  else if String.eqb action "analyze"
  then "Analyze the following code and provide insights:"
  else if String.eqb action "optimize"
  then "Optimize the following code for better performance and readability:"
  else if String.eqb action "review"
  then "Review the following code and provide feedback:"
  else "Generate code based on the following requirements:".

Definition buildCommandAndPrompt (action fileContent : string)
    : string * string :=
  ("claude --print", actionPrompt action ++ nl ++ nl ++ fileContent).

(** *** The child process *)

(** What one [spawn('claude', ...)] comes to: the process closes with an
    exit code, it is ended by a signal (the exit code is [null]), the spawn
    itself fails, or the process is still running when the timer of
    [TIMEOUT] ms fires and kills it.  The standard input of the child is a
    pipe, so the branch for a missing [child.stdin] is not taken. *)
Inductive ProcOutcome : Type :=
  | Closed (exitCode : Z) (stdout stderr : string)
  | Signalled (stdout stderr : string)
  | SpawnError (message : string)
  | Hung.

(** The subprocess abstraction: the outcome of the [attempt]-th spawn
    (counted from 1) fed [prompt] on its standard input. *)
Definition Runner : Type := Z -> string -> ProcOutcome.

(** [executeClaude]: resolves with stdout or rejects with a message. *)
Definition executeClaude (cfg : CLAUDE_CONFIG) (o : ProcOutcome)
    : string + string :=
  match o with
  | Closed exitCode stdout stderr =>
      if (exitCode =? 0)%Z then inl stdout
      else inr ("Claude CLI exited with code " ++ of_Z exitCode
                ++ ". stderr: " ++ stderr)
  | Signalled stdout stderr =>
      inr ("Claude CLI exited with code null. stderr: " ++ stderr)
  | SpawnError message => inr message
  | Hung => inr ("Claude CLI timed out after " ++ of_Z (TIMEOUT cfg) ++ "ms")
  end.

(** *** executeWithRetry *)

Inductive Event : Type :=
  | Spawn (attempt : Z)
  | Sleep (ms : Z).

(** [lastError?.message] inside the template literal *)
Definition message_of (lastError : option string) : string :=
  default "undefined" lastError.

(** The [for] loop from [attempt] on.  [fuel] bounds the iterations still to
    run; [None] means the bound was too small. *)
Fixpoint retry_loop (cfg : CLAUDE_CONFIG) (run : Runner) (prompt : string)
    (fuel : nat) (attempt : Z) (lastError : option string)
    : option ((string + string) * list Event) :=
  if (attempt <=? MAX_RETRIES cfg)%Z then
    match fuel with
    | O => None
    | S fuel =>
        match executeClaude cfg (run attempt prompt) with
        | inl output => Some (inl output, [Spawn attempt])
        | inr error =>
            let waits :=
              if (attempt <? MAX_RETRIES cfg)%Z
              then [Sleep (2 ^ (attempt - 1) * 1000)] else [] in
            match retry_loop cfg run prompt fuel (attempt + 1) (Some error) with
            | Some (r, evs) => Some (r, (Spawn attempt :: waits ++ evs)%list)
            | None => None
            end
        end
    end
  else
    Some (inr ("Claude CLI failed after " ++ of_Z (MAX_RETRIES cfg)
               ++ " attempts: " ++ message_of lastError), []).

Definition executeWithRetry_fuel (cfg : CLAUDE_CONFIG) : nat :=
  Z.to_nat (MAX_RETRIES cfg).

Definition executeWithRetry (cfg : CLAUDE_CONFIG) (run : Runner)
    (prompt : string) : option ((string + string) * list Event) :=
  retry_loop cfg run prompt (executeWithRetry_fuel cfg) 1 None.

(** *** parseOutput and its extractors *)

Definition BQ : ascii := ascii_of_N 96.
Definition fence : string := String BQ (String BQ (String BQ EmptyString)).
Definition close_fence : string := String LF fence.

(** [[\w]*], greedy: the number of word characters skipped and what
    follows them. *)
Fixpoint skip_word (s : string) : nat * string :=
  match s with
  | String c r =>
      if is_word c then let '(k, r') := skip_word r in (S k, r')
      else (O, s)
  | EmptyString => (O, s)
  end.

(** [([\s\S]*?)\n```], lazy: the text before the first newline that is
    followed by a fence. *)
Fixpoint find_close (s : string) : option string :=
  if String.prefix close_fence s then Some EmptyString
  else match s with
       | EmptyString => None
       | String c r =>
           match find_close r with
           | Some x => Some (String c x)
           | None => None
           end
       end.

(** One attempt of [codeBlockRegex] anchored at the head of [s]: the
    capture and the length of the whole match. *)
Definition match_here (s : string) : option (string * nat) :=
  if String.prefix fence s then
    let '(k, r) := skip_word (substring_from 3 s) in
    match r with
    | String c r' =>
        if Ascii.eqb c LF then
          match find_close r' with
          | Some x => Some (x, (3 + k + 1 + String.length x + 4)%nat)
          | None => None
          end
        else None
    | EmptyString => None
    end
  else None.

(** The [while ((match = codeBlockRegex.exec(output)) !== null)] loop.
    [skip] is the distance from the head of [s] to [lastIndex]. *)
Fixpoint codeBlocks_from (skip : nat) (s : string) : list string :=
  match skip with
  | S k =>
      match s with
      | String _ r => codeBlocks_from k r
      | EmptyString => []
      end
  | O =>
      match match_here s, s with
      | Some (x, len), String _ r => x :: codeBlocks_from (len - 1) r
      | _, String _ r => codeBlocks_from O r
      | _, EmptyString => []
      end
  end.

Definition codeBlocks (output : string) : list string :=
  codeBlocks_from O output.

(** [/^(Language|Framework):/i] *)
Definition metadata_line (line : string) : bool :=
  let l := toLowerCase line in
  String.prefix "language:" l || String.prefix "framework:" l.

Definition extractExplanation (output : string) : string :=
  let lines := split_lines output in
  let explanationLines :=
    List.filter (fun line =>
              negb (startsWith line fence)
              && negb (String.eqb (trim line) "")
              && negb (metadata_line line)) lines in
  trim (join_lines explanationLines).

(** The first line on which a keyword occurs, with all that follow. *)
Fixpoint from_keyword (keywords lines : list string) : option (list string) :=
  match lines with
  | [] => None
  | l :: rest =>
      if existsb (fun keyword => includes (toLowerCase l) keyword) keywords
      then Some lines
      else from_keyword keywords rest
  end.

Definition extractSection (output : string) (keywords : list string)
    : string :=
  match from_keyword keywords (split_lines output) with
  | Some section => trim (join_lines section)
  | None => trim output
  end.

(** [/^[-*]\s+/] *)
Definition bullet_line (line : string) : bool :=
  match line with
  | String c (String d _) =>
      (Ascii.eqb c "-" || Ascii.eqb c "*") && is_space d
  | _ => false
  end.

Fixpoint skip_digits (s : string) : string :=
  match s with
  | String c r => if is_digit c then skip_digits r else s
  | EmptyString => s
  end.

(** [/^\d+\.\s+/] *)
Definition numbered_line (line : string) : bool :=
  match line with
  | String c r =>
      is_digit c &&
      match skip_digits r with
      | String p (String d _) => Ascii.eqb p "." && is_space d
      | _ => false
      end
  | EmptyString => false
  end.

(** [line.replace(/^[-*\d.]\s+/, '')]: one character of the class, then
    all the white space after it. *)
Definition strip_marker (line : string) : string :=
  match line with
  | String c (String d r) =>
      if (Ascii.eqb c "-" || Ascii.eqb c "*" || is_digit c || Ascii.eqb c ".")
         && is_space d
      then trimStart r
      else line
  | _ => line
  end.

Definition list_items (lines : list string) : list string :=
  List.map (fun line => trim (strip_marker line))
    (List.filter (fun line => bullet_line line || numbered_line line) lines).

Definition extractSuggestions (output : string) : list string :=
  let suggestions := list_items (split_lines output) in
  if bool_decide (0 < length suggestions)%nat then suggestions
  else [extractSection output ["suggestions"; "recommendations"]].

Definition extractAnalysis (output : string) : string :=
  extractSection output ["analysis"; "review"; "assessment"].

Definition extractOptimizations (output : string) : list string :=
  extractSuggestions output.

Definition extractReview (output : string) : string :=
  extractSection output ["review"; "feedback"; "assessment"].

Definition extractIssues (output : string) : list string :=
  extractSuggestions output.

Definition first_block (output : string) : option string :=
  head (codeBlocks output).

Definition parseOutput (output action : string) : ClaudeExecutionResult :=
  let result :=
    if String.eqb action "generate" then
      {| code := first_block output;
         analysis := None;
         suggestions := None;
         explanation := Some (extractExplanation output) |}
    else if String.eqb action "analyze" then
      {| code := None;
         analysis := Some (extractAnalysis output);
         suggestions := Some (extractSuggestions output);
         explanation := None |}
    else if String.eqb action "optimize" then
      {| code := first_block output;
         analysis := None;
         suggestions := Some (extractOptimizations output);
         explanation := None |}
    else if String.eqb action "review" then
      {| code := None;
         analysis := Some (extractReview output);
         suggestions := Some (extractIssues output);
         explanation := None |}
    else empty_result in
  if negb (truthy_opt (code result))
     && negb (truthy_opt (analysis result))
     && negb (truthy_opt (explanation result))
  then {| code := code result;
          analysis := analysis result;
          suggestions := suggestions result;
          explanation := Some output |}
  else result.

(** Every character of [s] is a word character: [s] matches [[\w]*] as a
    whole, as the language hint of an opening fence must. *)
Fixpoint all_word (s : string) : bool :=
  match s with
  | EmptyString => true
  | String c r => is_word c && all_word r
  end.

(** A text with a fenced block: [pre], the opening fence with its hint
    [tag], the content [X] on lines of its own, the closing fence, [post]. *)
Definition fenced (pre tag X post : string) : string :=
  pre ++ fence ++ tag ++ nl ++ X ++ close_fence ++ post.

(** *** execute *)

(** [staging]: [Some m] when creating the temporary directory or writing
    and reading back the prompt file rejects with message [m].  The
    [finally] block only removes the directory and swallows its own
    failures. *)
Definition execute (cfg : CLAUDE_CONFIG) (staging : option string)
    (run : Runner) (o : ClaudeExecutionOptions)
    : option ((ClaudeExecutionResult + string) * list Event) :=
  match staging with
  | Some m => Some (inr m, [])
  | None =>
      let formattedPrompt := formatPrompt o in
      let '(command, fullPrompt) :=
        buildCommandAndPrompt (action o) formattedPrompt in
      match executeWithRetry cfg run fullPrompt with
      | Some (inl output, evs) => Some (inl (parseOutput output (action o)), evs)
      | Some (inr m, evs) => Some (inr m, evs)
      | None => None
      end
  end.

(** *** The retry policy in the words of the specification *)

(** [k] failed attempts numbered from [attempt], each followed by a wait of
    [base * 2^(attempt - 1)] ms, and then one more attempt. *)
Fixpoint attempts_trace (base : Z) (k : nat) (attempt : Z) : list Event :=
  match k with
  | O => [Spawn attempt]
  | S k =>
      Spawn attempt :: Sleep (base * 2 ^ (attempt - 1))
        :: attempts_trace base k (attempt + 1)
  end.

(** [n] attempts numbered from [attempt] with the waits between
    consecutive ones. *)
Definition failed_trace (base : Z) (n : nat) (attempt : Z) : list Event :=
  match n with
  | O => []
  | S k => attempts_trace base k attempt
  end.

(** The message of the error thrown when the attempts are used up. *)
Definition exhausted (cfg : CLAUDE_CONFIG) (lastError : option string)
    : string :=
  "Claude CLI failed after " ++ of_Z (MAX_RETRIES cfg) ++ " attempts: "
  ++ message_of lastError.

(** The overall outcome is a success. *)
Definition succeeded (r : option ((string + string) * list Event)) : Prop :=
  exists output evs, r = Some (inl output, evs).



End ClaudeWrapper.

(** ** The platform's [URL] *)

Module Url.
Import JsString.

Record URL : Type := {
  protocol : string;   (* scheme and the colon *)
  hostname : string;   (* host without the port *)
  port : string;       (* empty when absent or the scheme's default *)
  rest : string        (* path, query and fragment as written *)
}.

Definition scheme_char (c : ascii) : bool :=
  is_upper c || is_lower c || is_digit c
  || Ascii.eqb c "+" || Ascii.eqb c "-" || Ascii.eqb c ".".

Definition host_char (c : ascii) : bool :=
  is_upper c || is_lower c || is_digit c
  || Ascii.eqb c "-" || Ascii.eqb c "." || Ascii.eqb c "_".

(** The longest prefix of characters satisfying [p], and the remainder. *)
Fixpoint span (p : ascii -> bool) (s : string) : string * string :=
  match s with
  | String c r =>
      if p c then let '(a, b) := span p r in (String c a, b)
      else (EmptyString, s)
  | EmptyString => (EmptyString, EmptyString)
  end.

Definition digit_value (c : ascii) : Z := Z.of_N (code c) - 48.

Fixpoint decimal (acc : Z) (s : string) : Z :=
  match s with
  | String c r => decimal (10 * acc + digit_value c) r
  | EmptyString => acc
  end.

Definition default_port (scheme : string) : option Z :=
  if String.eqb scheme "http" then Some 80
  else if String.eqb scheme "https" then Some 443
  else if String.eqb scheme "ws" then Some 80
  else if String.eqb scheme "wss" then Some 443
  else if String.eqb scheme "ftp" then Some 21
  else None.

(** The schemes whose host is a domain, written in lower case. *)
Definition special (scheme : string) : bool :=
  String.eqb scheme "file"
  || match default_port scheme with Some _ => true | None => false end.

Definition path_start (s : string) : bool :=
  match s with
  | EmptyString => true
  | String c _ => Ascii.eqb c "/" || Ascii.eqb c "?" || Ascii.eqb c "#"
  end.

(** [new URL(input)] on absolute URLs of the form
    [scheme://host[:port][/path][?query][#fragment]] with a host of
    letters, digits, [-], [.] and [_]; [None] is the [TypeError] the
    constructor throws.  Inputs of other forms (credentials, IPv6
    literals, percent escapes in the host, scheme-relative leniency) are
    outside this model and rejected. *)
Definition parse (input : string) : option URL :=
  match input with
  | String c _ =>
      if is_upper c || is_lower c then
        let '(scheme, r) := span scheme_char input in
        if String.prefix "://" r then
          let '(host, r) := span host_char (substring_from 3 r) in
          if String.eqb host "" then None
          else
            let scheme := toLowerCase scheme in
            let host := if special scheme then toLowerCase host else host in
            match r with
            | String ":" r' =>
                let '(digits, r'') := span is_digit r' in
                if path_start r'' then
                  if String.eqb digits "" then
                    Some {| protocol := scheme ++ ":"; hostname := host;
                            port := ""; rest := r'' |}
                  else
                    let n := decimal 0 digits in
                    if (65535 <? n)%Z then None
                    else
                      Some {| protocol := scheme ++ ":"; hostname := host;
                              port := if bool_decide (default_port scheme = Some n)
                                      then "" else of_Z n;
                              rest := r'' |}
                else None
            | _ =>
                if path_start r then
                  Some {| protocol := scheme ++ ":"; hostname := host;
                          port := ""; rest := r |}
                else None
            end
        else None
      else None
  | EmptyString => None
  end.

(** The origin of a URL: scheme, host, and the port when it has one. *)
Definition origin (u : URL) : string :=
  protocol u ++ "//" ++ hostname u
  ++ (if String.eqb (port u) "" then "" else ":" ++ port u).

End Url.

(** ** lib/auth *)

Module Auth.
Import JsString.

(** [SECURITY] of lib/constants (read from the environment). *)
Record SECURITY : Type := {
  API_SECRET : string;
  ALLOWED_ORIGINS : list string
}.

(** What [validateAuth] reads of a [NextRequest]: its headers, keyed by
    lower-case name, and [request.ip]. *)
Record Incoming : Type := {
  headers : gmap string string;
  ip : option string
}.

Record AuthResult : Type := {
  valid : bool;
  clientId : option string;
  message : option string
}.

Definition reject (m : string) : AuthResult :=
  {| valid := false; clientId := None; message := Some m |}.

(** [ALLOWED_ORIGINS.includes(o)] *)
Definition origin_allowed (cfg : SECURITY) (o : string) : bool :=
  existsb (String.eqb o) (ALLOWED_ORIGINS cfg).

(** ToInt32 *)
Definition to_int32 (z : Z) : Z := (z + 2 ^ 31) mod 2 ^ 32 - 2 ^ 31.

(** [hash = ((hash << 5) - hash) + char; hash = hash & hash] over the code
    units of the string. *)
Fixpoint hash_from (hash : Z) (s : string) : Z :=
  match s with
  | EmptyString => hash
  | String c r =>
      let char := Z.of_N (code c) in
      let hash := to_int32 (Z.shiftl hash 5) - hash + char in
      hash_from (to_int32 (Z.land hash hash)) r
  end.

Definition digit36 (d : Z) : ascii :=
  if (d <? 10)%Z then ascii_of_N (Z.to_N (48 + d))
  else ascii_of_N (Z.to_N (87 + d)).

Fixpoint base36_from (fuel : nat) (n : Z) (acc : string) : string :=
  let acc := String (digit36 (n mod 36)) acc in
  match fuel with
  | O => acc
  | S fuel => if (n / 36 =? 0)%Z then acc else base36_from fuel (n / 36) acc
  end.

(** [n.toString(36)] for an integer [n >= 0]; the number of digits is at
    most the number of bits. *)
Definition toString36 (n : Z) : string :=
  base36_from (Z.to_nat (Z.log2 n)) n "".

Definition generateClientId (request : Incoming) : string :=
  let ip :=
    or_else (ip request)
      (or_else (headers request !! "x-forwarded-for") "unknown") in
  let userAgent := or_else (headers request !! "user-agent") "unknown" in
  let sessionId := or_else (headers request !! "x-session-id") "" in
  let rawString := ip ++ "-" ++ userAgent ++ "-" ++ sessionId in
  let hash := hash_from 0 rawString in
  "client_" ++ toString36 (Z.abs hash).

Definition validateAuth (cfg : SECURITY) (request : Incoming) : AuthResult :=
  let authHeader := headers request !! "authorization" in
  if negb (truthy_opt authHeader)
     || negb (startsWith (default "" authHeader) "Bearer ")
  then reject "Missing or invalid Authorization header"
  else
    let apiKey := substring_from 7 (default "" authHeader) in
    if negb (truthy apiKey) || negb (String.eqb apiKey (API_SECRET cfg))
    then reject "Invalid API key"
    else
      let origin := headers request !! "origin" in
      let referer := headers request !! "referer" in
      if truthy_opt origin && negb (origin_allowed cfg (default "" origin))
      then reject "Origin not allowed"
      else
        let accept :=
          {| valid := true;
             clientId := Some (generateClientId request);
             message := Some "Authentication successful" |} in
        if truthy_opt referer then
          match Url.parse (default "" referer) with
          | None => reject "Authentication failed"
          | Some refererUrl =>
              let refererOrigin :=
                Url.protocol refererUrl ++ "//" ++ Url.hostname refererUrl in
              if negb (origin_allowed cfg refererOrigin)
              then reject "Referer not allowed"
              else accept
          end
        else accept.

End Auth.

(** ** app/api/claude-code/route *)

Module Route.
Import JsString.

(** A parsed JSON document.  An object lists its own properties; a key
    written twice keeps its last value, as [JSON.parse] does. *)
#[local] Unset Elimination Schemes.
Inductive json : Type :=
  | JNull
  | JBool (b : bool)
  | JNum (q : Q)
  | JStr (s : string)
  | JArr (items : list json)
  | JObj (fields : list (string * json)).
#[local] Set Elimination Schemes.

Fixpoint assoc_last (k : string) (fields : list (string * json))
    : option json :=
  match fields with
  | [] => None
  | (k', v) :: rest =>
      match assoc_last k rest with
      | Some v' => Some v'
      | None => if String.eqb k k' then Some v else None
      end
  end.

(** [v.k] for one of the member names the handler reads; [None] is
    [undefined].  Arrays have none of those members. *)
Definition get (v : json) (k : string) : option json :=
  match v with
  | JObj fields => assoc_last k fields
  | _ => None
  end.

Definition truthy_json (v : option json) : bool :=
  match v with
  | None | Some JNull => false
  | Some (JBool b) => b
  | Some (JNum q) => negb (Qeq_bool q 0)
  | Some (JStr s) => truthy s
  | Some (JArr _) | Some (JObj _) => true
  end.

(** [typeof v === 'object'] ([null] included) *)
Definition typeof_object (v : json) : bool :=
  match v with
  | JNull | JArr _ | JObj _ => true
  | _ => false
  end.

(** [v !== undefined] *)
Definition defined (v : option json) : bool :=
  match v with Some _ => true | None => false end.

(** [v === null] *)
Definition is_null (v : json) : bool :=
  match v with JNull => true | _ => false end.

Definition is_string (v : option json) : bool :=
  match v with Some (JStr _) => true | _ => false end.

Definition is_boolean (v : option json) : bool :=
  match v with Some (JBool _) => true | _ => false end.

Definition as_string (v : option json) : option string :=
  match v with Some (JStr s) => Some s | _ => None end.

Definition as_bool (v : option json) : option bool :=
  match v with Some (JBool b) => Some b | _ => None end.

Definition as_num (v : option json) : option Q :=
  match v with Some (JNum q) => Some q | _ => None end.

(** [list.includes(v)] for a list of strings *)
Definition one_of (names : list string) (v : option json) : bool :=
  match v with
  | Some (JStr s) => existsb (String.eqb s) names
  | _ => false
  end.

Record ValidationResult : Type := {
  valid : bool;
  message : option string
}.

Definition invalid (m : string) : ValidationResult :=
  {| valid := false; message := Some m |}.

Definition validateOptions (options : json) : ValidationResult :=
  if negb (typeof_object options) then invalid "Options must be an object"
  else
    let includeTests := get options "includeTests" in
    let includeComments := get options "includeComments" in
    let codeStyle := get options "codeStyle" in
    let maxTokens := get options "maxTokens" in
    if defined includeTests && negb (is_boolean includeTests)
    then invalid "includeTests must be a boolean"
    else if defined includeComments
            && negb (is_boolean includeComments)
    then invalid "includeComments must be a boolean"
    else if truthy_json codeStyle && is_string codeStyle
            && negb (one_of ["modern"; "legacy"] codeStyle)
    then invalid ("codeStyle must be either " ++ dq ++ "modern" ++ dq
                  ++ " or " ++ dq ++ "legacy" ++ dq)
    else
      match maxTokens with
      | None => {| valid := true; message := None |}
      | Some (JNum q) =>
          if Qle_bool 100 q && Qle_bool q 8192
          then {| valid := true; message := None |}
          else invalid "maxTokens must be a number between 100 and 8192"
      | Some _ => invalid "maxTokens must be a number between 100 and 8192"
      end.

(** [validateRequest(body)]; [maxPromptLength] is
    [API_CONFIG.MAX_PROMPT_LENGTH]. *)
Definition validateRequest (maxPromptLength : Z) (body : json)
    : ValidationResult :=
  if negb (typeof_object body) || is_null body
  then invalid "Request body must be an object"
  else
    let action := get body "action" in
    let prompt := get body "prompt" in
    if negb (truthy_json action)
       || negb (one_of ["generate"; "analyze"; "optimize"; "review"] action)
    then invalid "Invalid or missing action. Must be: generate, analyze, optimize, or review"
    else if negb (truthy_json prompt) || negb (is_string prompt)
    then invalid "Prompt is required and must be a string"
    else
      let p := default "" (as_string prompt) in
      if bool_decide (String.length (trim p) = 0%nat)
      then invalid "Prompt cannot be empty"
      else if (maxPromptLength <? Z.of_nat (String.length p))%Z
      then invalid ("Prompt must be under " ++ of_Z maxPromptLength
                    ++ " characters")
      else if truthy_json (get body "language")
              && negb (is_string (get body "language"))
      then invalid "Language must be a string"
      else if truthy_json (get body "framework")
              && negb (is_string (get body "framework"))
      then invalid "Framework must be a string"
      else if truthy_json (get body "options")
      then validateOptions (default JNull (get body "options"))
      else {| valid := true; message := None |}.

(** Modelled from the spec: lib/constants is not among the sources, so
    the members of [ERROR_CODES] are taken from the error taxonomy of the
    specification (section 7), one code per kind of error; the handler
    itself names [UNAUTHORIZED], [RATE_LIMIT_EXCEEDED], [INVALID_REQUEST]
    and [INTERNAL_SERVER_ERROR]. *)
Inductive ERROR_CODES : Type :=
  | UNAUTHORIZED
  | RATE_LIMIT_EXCEEDED
  | INVALID_REQUEST
  | TIMEOUT_ERROR
  | EXECUTION_ERROR
  | INTERNAL_SERVER_ERROR.

(** The members of [HTTP_STATUS] the handler names. *)
Inductive HTTP_STATUS : Type :=
  | OK
  | BAD_REQUEST
  | STATUS_UNAUTHORIZED
  | TOO_MANY_REQUESTS
  | STATUS_INTERNAL_SERVER_ERROR.

Record ErrorBody : Type := {
  code : ERROR_CODES;
  error_message : string
}.

(** The response envelope and its status.  Of [metadata] only [sessionId]
    is kept; [timestamp] and [executionTime] are readings of the wall
    clock. *)
Record ClaudeCodeResponse : Type := {
  status : HTTP_STATUS;
  success : bool;
  data : option ClaudeWrapper.ClaudeExecutionResult;
  error : option ErrorBody;
  sessionId : string
}.

Record Settings : Type := {
  security : Auth.SECURITY;
  rate_limits : RateLimiter.RATE_LIMITS;
  claude_config : ClaudeWrapper.CLAUDE_CONFIG;
  MAX_PROMPT_LENGTH : Z;
  development : bool   (* [process.env.NODE_ENV === 'development'] *)
}.

(** What the handler observes of the outside during one request. *)
Record World : Type := {
  now : Z;                      (* [Date.now()] inside [check] *)
  freshSessionId : string;      (* what [generateSessionId()] returns *)
  staging : option string;      (* see [ClaudeWrapper.execute] *)
  run : ClaudeWrapper.Runner
}.

(** [body]: the document [request.json()] resolves with, or the message
    it rejects with. *)
Record NextRequest : Type := {
  incoming : Auth.Incoming;
  body : json + string
}.

Definition failure (st : HTTP_STATUS) (c : ERROR_CODES) (m sid : string)
    : ClaudeCodeResponse :=
  {| status := st; success := false; data := None;
     error := Some {| code := c; error_message := m |};
     sessionId := sid |}.

(** The [catch] block of [POST]. *)
Definition caught (cfg : Settings) (m sid : string) : ClaudeCodeResponse :=
  failure STATUS_INTERNAL_SERVER_ERROR INTERNAL_SERVER_ERROR
    (if development cfg then m else "An unexpected error occurred") sid.

(** [Math.ceil(resetTime / 1000)] inside the template literal *)
Definition ceil_seconds (t : jsnum) : string :=
  match t with
  | Fin z => of_Z (- ((- z) / 1000))
  | PosInf => "Infinity"
  end.

Definition to_flags (options : option json) : ClaudeWrapper.ExecutionFlags :=
  if truthy_json options then
    let o := default JNull options in
    {| ClaudeWrapper.includeTests := as_bool (get o "includeTests");
       ClaudeWrapper.includeComments := as_bool (get o "includeComments");
       ClaudeWrapper.codeStyle := as_string (get o "codeStyle");
       ClaudeWrapper.maxTokens := as_num (get o "maxTokens") |}
  else ClaudeWrapper.no_flags.

(** The argument of [claudeWrapper.execute] built from a validated body. *)
Definition to_options (b : json) : ClaudeWrapper.ClaudeExecutionOptions :=
  {| ClaudeWrapper.action := default "" (as_string (get b "action"));
     ClaudeWrapper.prompt := default "" (as_string (get b "prompt"));
     ClaudeWrapper.language := as_string (get b "language");
     ClaudeWrapper.framework := as_string (get b "framework");
     ClaudeWrapper.options := Some (to_flags (get b "options")) |}.

(** [POST(request)]: the response, the limiter's store afterwards and the
    child-process events, or [None] if the retry loop ran out of fuel. *)
Definition POST (cfg : Settings) (w : World) (request : NextRequest)
    (requests : RateLimiter.store)
    : option (ClaudeCodeResponse * RateLimiter.store
              * list ClaudeWrapper.Event) :=
  let sessionId :=
    or_else (Auth.headers (incoming request) !! "x-session-id")
            (freshSessionId w) in
  let authResult := Auth.validateAuth (security cfg) (incoming request) in
  if negb (Auth.valid authResult) then
    Some (failure STATUS_UNAUTHORIZED UNAUTHORIZED
            (or_else (Auth.message authResult) "Invalid authentication")
            sessionId,
          requests, [])
  else
    let clientId := or_else (Auth.clientId authResult) "anonymous" in
    let '(rateLimitResult, requests) :=
      RateLimiter.check (rate_limits cfg) (now w) clientId requests in
    if negb (RateLimiter.allowed rateLimitResult) then
      Some (failure TOO_MANY_REQUESTS RATE_LIMIT_EXCEEDED
              ("Rate limit exceeded. Remaining: "
               ++ of_Z (RateLimiter.remaining rateLimitResult)
               ++ ", Reset in: "
               ++ ceil_seconds (RateLimiter.resetTime rateLimitResult)
               ++ "s")
              sessionId,
            requests, [])
    else
      match body request with
      | inr m => Some (caught cfg m sessionId, requests, [])
      | inl b =>
          let validationResult := validateRequest (MAX_PROMPT_LENGTH cfg) b in
          if negb (valid validationResult) then
            Some (failure BAD_REQUEST INVALID_REQUEST
                    (or_else (message validationResult)
                             "Invalid request format")
                    sessionId,
                  requests, [])
          else
            match ClaudeWrapper.execute (claude_config cfg) (staging w)
                    (run w) (to_options b) with
            | None => None
            | Some (inr m, evs) => Some (caught cfg m sessionId, requests, evs)
            | Some (inl result, evs) =>
                let requests :=
                  RateLimiter.recordSuccess (rate_limits cfg) clientId
                    requests in
                Some ({| status := OK; success := true;
                         data := Some result; error := None;
                         sessionId := sessionId |},
                      requests, evs)
            end
      end.


(** *** The values the handler computes on its way *)

Definition sessionId_of (w : World) (request : NextRequest) : string :=
  or_else (Auth.headers (incoming request) !! "x-session-id")
          (freshSessionId w).

Definition authResult_of (cfg : Settings) (request : NextRequest)
    : Auth.AuthResult :=
  Auth.validateAuth (security cfg) (incoming request).

Definition clientId_of (cfg : Settings) (request : NextRequest) : string :=
  or_else (Auth.clientId (authResult_of cfg request)) "anonymous".

Definition rateLimit_of (cfg : Settings) (w : World) (request : NextRequest)
    (requests : RateLimiter.store)
    : RateLimiter.RateLimitResult * RateLimiter.store :=
  RateLimiter.check (rate_limits cfg) (now w) (clientId_of cfg request)
    requests.

Definition rate_message (r : RateLimiter.RateLimitResult) : string :=
  "Rate limit exceeded. Remaining: " ++ of_Z (RateLimiter.remaining r)
  ++ ", Reset in: " ++ ceil_seconds (RateLimiter.resetTime r) ++ "s".

(** The success envelope. *)
Definition succeed (result : ClaudeWrapper.ClaudeExecutionResult)
    (sid : string) : ClaudeCodeResponse :=
  {| status := OK; success := true; data := Some result; error := None;
     sessionId := sid |}.

(** The code of the envelope's error, if it has one. *)
Definition error_code (resp : ClaudeCodeResponse) : option ERROR_CODES :=
  code <$> error resp.
End Route.

(** ** Inputs of the concrete scenarios *)

Module Scenario.
Import JsString.

(** window = 60000 ms, max = 2 *)
Definition limits (skip : bool) : RateLimiter.RATE_LIMITS :=
  {| RateLimiter.WINDOW_MS := 60000;
     RateLimiter.MAX_REQUESTS := 2;
     RateLimiter.SKIP_SUCCESS := skip |}.


Definition claude : ClaudeWrapper.CLAUDE_CONFIG :=
  {| ClaudeWrapper.TIMEOUT := 120000;
     ClaudeWrapper.MAX_RETRIES := 3;
     ClaudeWrapper.MODEL := "default";
     ClaudeWrapper.AUTH_METHOD := "oauth" |}.

(** A child process that exits with code 1 on the first two spawns and
    prints [output] on the third. *)
Definition flaky (output : string) : ClaudeWrapper.Runner :=
  fun attempt _ =>
    if (attempt <? 3)%Z then ClaudeWrapper.Closed 1 "" "boom"
    else ClaudeWrapper.Closed 0 output "".

(** A child process that never exits by itself. *)
Definition hanging : ClaudeWrapper.Runner :=
  fun _ _ => ClaudeWrapper.Hung.

(** The allow-list of the deployment notes. *)
Definition security : Auth.SECURITY :=
  {| Auth.API_SECRET := "s3cret";
     Auth.ALLOWED_ORIGINS :=
       ["https://script.google.com"; "https://docs.google.com"] |}.

(** An allow-list entry with a port. *)
Definition local_security : Auth.SECURITY :=
  {| Auth.API_SECRET := "s3cret";
     Auth.ALLOWED_ORIGINS := ["http://localhost:3000"] |}.

(** A request with the right credential, no Origin, and [referer]. *)
Definition referred (referer : string) : Auth.Incoming :=
  {| Auth.headers :=
       <["authorization" := "Bearer s3cret"]> (<["referer" := referer]> ∅);
     Auth.ip := None |}.

(** A request with the right credential and no Origin or Referer. *)
Definition authorized : Auth.Incoming :=
  {| Auth.headers := <["authorization" := "Bearer s3cret"]> ∅;
     Auth.ip := None |}.

(** A request with a wrong credential. *)
Definition intruder : Auth.Incoming :=
  {| Auth.headers := <["authorization" := "Bearer guess"]> ∅;
     Auth.ip := None |}.

Definition settings (dev : bool) : Route.Settings :=
  {| Route.security := security;
     Route.rate_limits := limits false;
     Route.claude_config := claude;
     Route.MAX_PROMPT_LENGTH := 10000;
     Route.development := dev |}.

Definition world (run : ClaudeWrapper.Runner) : Route.World :=
  {| Route.now := 5;
     Route.freshSessionId := "sess_5_abc";
     Route.staging := None;
     Route.run := run |}.

(** [{action: "generate", prompt: "add two numbers", language: "javascript"}] *)
Definition generate_body : Route.json :=
  Route.JObj [("action", Route.JStr "generate");
              ("prompt", Route.JStr "add two numbers");
              ("language", Route.JStr "javascript")].

(** A body without [action]. *)
Definition shapeless_body : Route.json := Route.JObj [].

Definition request (who : Auth.Incoming) (b : Route.json) : Route.NextRequest :=
  {| Route.incoming := who; Route.body := inl b |}.
End Scenario.

(** * Properties *)


(** ** The rate limiter *)

Section RateLimiterFacts.
Import RateLimiter.

Implicit Types (cfg : RATE_LIMITS) (requests : store) (l : list Z).

Lemma check_denied cfg now clientId requests :
  MAX_REQUESTS cfg
    <= Z.of_nat (length (in_window (now - WINDOW_MS cfg) (bucket requests clientId))) ->
  check cfg now clientId requests =
    ({| allowed := false; remaining := 0;
        resetTime :=
          jsnum_max
            (jsnum_add
               (Math_min (in_window (now - WINDOW_MS cfg) (bucket requests clientId)))
               (WINDOW_MS cfg - now))
            (Fin 0) |},
     requests).
Proof.
  intros H. unfold check, bucket in *.
  rewrite bool_decide_eq_true_2; [reflexivity | exact H].
Qed.

Lemma check_allowed cfg now clientId requests :
  Z.of_nat (length (in_window (now - WINDOW_MS cfg) (bucket requests clientId)))
    < MAX_REQUESTS cfg ->
  check cfg now clientId requests =
    ({| allowed := true;
        remaining :=
          MAX_REQUESTS cfg
          - Z.of_nat (length (in_window (now - WINDOW_MS cfg)
                                (bucket requests clientId) ++ [now])%list);
        resetTime := Fin (WINDOW_MS cfg) |},
     <[clientId :=
         (in_window (now - WINDOW_MS cfg) (bucket requests clientId) ++ [now])%list]>
       requests).
Proof.
  intros H. unfold check, bucket in *.
  rewrite bool_decide_eq_false_2; [reflexivity | by apply Z.lt_nge].
Qed.

Lemma bucket_insert requests clientId l :
  bucket (<[clientId := l]> requests) clientId = l.
Proof. unfold bucket. by rewrite lookup_insert_eq. Qed.

Lemma in_window_not_older cfg now l :
  in_window (now - WINDOW_MS cfg) (not_older cfg now l)
  = in_window (now - WINDOW_MS cfg) l.
Proof.
  unfold in_window, not_older.
  induction l as [|x l IH]; [reflexivity|].
  rewrite !filter_cons.
  destruct (decide (now - WINDOW_MS cfg <= x)) as [Hle|Hle];
    destruct (decide (now - WINDOW_MS cfg < x)) as [Hlt|Hlt];
    rewrite ?filter_cons; try (exfalso; lia).
  - rewrite decide_True by exact Hlt. by rewrite IH.
  - rewrite decide_False by exact Hlt. exact IH.
  - exact IH.
Qed.

(** C1.  With window = 60000 ms and max = 2, the checks of one client at
    t = 0, 10, 20 and 61000, starting with no bucket for that client, are
    answered in order: allowed with 1 remaining; allowed with 0 remaining;
    denied with 0 remaining and a reset time of 59980 ms; allowed again. *)
Theorem check_concrete_scenario (clientId : string) (skip : bool) requests :
  requests !! clientId = None ->
  fst (checks (Scenario.limits skip) clientId [0; 10; 20; 61000] requests) =
    [ {| allowed := true; remaining := 1; resetTime := Fin 60000 |};
      {| allowed := true; remaining := 0; resetTime := Fin 60000 |};
      {| allowed := false; remaining := 0; resetTime := Fin 59980 |};
      {| allowed := true; remaining := 1; resetTime := Fin 60000 |} ].
Proof.
  intros Hnone.
  assert (Hb : bucket requests clientId = []) by (unfold bucket; by rewrite Hnone).
  unfold checks.
  rewrite (check_allowed _ 0) by (rewrite Hb; by vm_compute).
  rewrite Hb.
  rewrite (check_allowed _ 10) by (rewrite bucket_insert; by vm_compute).
  rewrite bucket_insert.
  rewrite (check_denied _ 20) by (rewrite bucket_insert; by vm_compute).
  rewrite bucket_insert.
  rewrite (check_allowed _ 61000) by (rewrite bucket_insert; by vm_compute).
  rewrite bucket_insert.
  reflexivity.
Qed.

Lemma check_concrete_scenario_witness :
  fst (checks (Scenario.limits false) "c1" [0; 10; 20; 61000] ∅) =
    [ {| allowed := true; remaining := 1; resetTime := Fin 60000 |};
      {| allowed := true; remaining := 0; resetTime := Fin 60000 |};
      {| allowed := false; remaining := 0; resetTime := Fin 59980 |};
      {| allowed := true; remaining := 1; resetTime := Fin 60000 |} ].
Proof. apply (check_concrete_scenario "c1" false ∅). reflexivity. Defined.

Lemma length_not_older cfg now l :
  (length (not_older cfg now l) <= length l)%nat.
Proof. unfold not_older. apply length_filter. Qed.

Lemma check_cases cfg now clientId requests :
  let kept := in_window (now - WINDOW_MS cfg) (bucket requests clientId) in
  (MAX_REQUESTS cfg <= Z.of_nat (length kept)
   /\ allowed (fst (check cfg now clientId requests)) = false
   /\ snd (check cfg now clientId requests) = requests)
  \/
  (Z.of_nat (length kept) < MAX_REQUESTS cfg
   /\ allowed (fst (check cfg now clientId requests)) = true
   /\ snd (check cfg now clientId requests)
      = <[clientId := (kept ++ [now])%list]> requests).
Proof.
  intros kept.
  destruct (Z_le_gt_dec (MAX_REQUESTS cfg) (Z.of_nat (length kept))) as [Hle|Hgt].
  - left. rewrite check_denied by exact Hle. auto.
  - right. apply Z.gt_lt in Hgt. rewrite check_allowed by exact Hgt. auto.
Qed.

Lemma check_allowed_bound cfg now clientId requests :
  allowed (fst (check cfg now clientId requests)) = true ->
  Z.of_nat (length (not_older cfg now
                      (bucket (snd (check cfg now clientId requests)) clientId)))
  <= MAX_REQUESTS cfg.
Proof.
  intros Hallowed.
  destruct (check_cases cfg now clientId requests) as [(_ & Hd & _)|(Hlt & _ & Hs)].
  - rewrite Hd in Hallowed. discriminate.
  - rewrite Hs, bucket_insert.
    pose proof (length_not_older cfg now
      (in_window (now - WINDOW_MS cfg) (bucket requests clientId) ++ [now])%list) as Hlen.
    rewrite length_app in Hlen. cbn [length] in Hlen.
    revert Hlt Hlen.
    generalize (length (in_window (now - WINDOW_MS cfg) (bucket requests clientId))).
    generalize (length (not_older cfg now
      (in_window (now - WINDOW_MS cfg) (bucket requests clientId) ++ [now])%list)).
    intros n m Hlt Hlen. lia.
Qed.

(** C9.  In every run of [check] calls, from any store and for any mix of
    clients, whenever a call is answered allowed the timestamps stored for
    its client that lie in the trailing window of width W at that instant
    number at most the configured maximum; and the decision is the same for
    two stores whose buckets agree on the timestamps not older than
    [now - W], so older ones never count. *)
Theorem check_window_bound_and_pruning cfg :
  (forall calls requests0 clientId now r requests,
     In (clientId, now, r, requests) (history cfg calls requests0) ->
     allowed r = true ->
     Z.of_nat (length (not_older cfg now (bucket requests clientId)))
     <= MAX_REQUESTS cfg)
  /\
  (forall clientId now (requests1 requests2 : store),
     not_older cfg now (bucket requests1 clientId)
     = not_older cfg now (bucket requests2 clientId) ->
     fst (check cfg now clientId requests1)
     = fst (check cfg now clientId requests2)).
Proof.
  split.
  - induction calls as [|[c t] calls IH];
      intros requests0 clientId now r requests Hin Hallowed.
    + destruct Hin.
    + cbn [history] in Hin.
      pose proof (check_allowed_bound cfg t c requests0) as Hstep.
      destruct (check cfg t c requests0) as [r0 s0]. cbn [fst snd] in Hstep.
      destruct Hin as [Heq|Hin].
      * injection Heq as -> -> -> ->. exact (Hstep Hallowed).
      * exact (IH s0 clientId now r requests Hin Hallowed).
  - intros clientId now requests1 requests2 Hagree.
    assert (Hkept : in_window (now - WINDOW_MS cfg) (bucket requests1 clientId)
                    = in_window (now - WINDOW_MS cfg) (bucket requests2 clientId)).
    { rewrite <- (in_window_not_older cfg now (bucket requests1 clientId)).
      rewrite Hagree. apply in_window_not_older. }
    unfold check. fold (bucket requests1 clientId) (bucket requests2 clientId).
    rewrite Hkept.
    destruct (bool_decide _); reflexivity.
Qed.

Lemma check_window_bound_and_pruning_witness :
  Z.of_nat (length (not_older (Scenario.limits false) 10
              (bucket (snd (check (Scenario.limits false) 10 "c1"
                              {["c1" := [0]]})) "c1"))) <= 2
  /\ fst (check (Scenario.limits false) 61000 "c1" {["c1" := [0; 10; 61000]]})
     = fst (check (Scenario.limits false) 61000 "c1" {["c1" := [61000]]}).
Proof.
  split.
  - apply (proj1 (check_window_bound_and_pruning (Scenario.limits false))
             [("c1", 0); ("c1", 10)] ∅ "c1" 10
             (fst (check (Scenario.limits false) 10 "c1" {["c1" := [0]]}))).
    + right. left. reflexivity.
    + reflexivity.
  - apply (proj2 (check_window_bound_and_pruning (Scenario.limits false))
             "c1" 61000).
    reflexivity.
Defined.

(** C10.  A denied [check] leaves the store of timestamps exactly as it
    was: nothing is appended for the denied request and the pruned bucket
    is not written back. *)
Theorem check_denied_store_unchanged cfg now clientId requests :
  allowed (fst (check cfg now clientId requests)) = false ->
  snd (check cfg now clientId requests) = requests.
Proof.
  intros Hdenied.
  destruct (check_cases cfg now clientId requests) as [(_ & _ & Hs)|(_ & Ha & _)].
  - exact Hs.
  - rewrite Ha in Hdenied. discriminate.
Qed.

Lemma check_denied_store_unchanged_witness :
  snd (check (Scenario.limits false) 65000 "c1" {["c1" := [0; 10000; 20000]]})
  = {["c1" := [0; 10000; 20000]]}.
Proof.
  apply (check_denied_store_unchanged (Scenario.limits false) 65000 "c1"
           {["c1" := [0; 10000; 20000]]}).
  reflexivity.
Defined.

End RateLimiterFacts.

(** ** The retry loop *)

Section RetryFacts.
Import ClaudeWrapper.

Variables (cfg : CLAUDE_CONFIG) (run : Runner) (prompt : string).

Lemma retry_loop_success (msg : Z -> string) (output : string) :
  forall (k fuel : nat) (attempt : Z) (lastError : option string),
    (forall a, attempt <= a < attempt + Z.of_nat k ->
               executeClaude cfg (run a prompt) = inr (msg a)) ->
    executeClaude cfg (run (attempt + Z.of_nat k) prompt) = inl output ->
    attempt + Z.of_nat k <= MAX_RETRIES cfg ->
    (k < fuel)%nat ->
    retry_loop cfg run prompt fuel attempt lastError
    = Some (inl output, attempts_trace 1000 k attempt).
Proof.
  induction k as [|k IH]; intros fuel attempt lastError Hfail Hok Hle Hfuel.
  - destruct fuel as [|fuel]; [lia|].
    cbn [retry_loop attempts_trace].
    rewrite Z.add_0_r in Hok, Hle.
    rewrite (proj2 (Z.leb_le _ _) Hle), Hok. reflexivity.
  - destruct fuel as [|fuel]; [lia|].
    cbn [retry_loop attempts_trace].
    rewrite (proj2 (Z.leb_le attempt (MAX_RETRIES cfg))) by lia.
    rewrite Hfail by lia.
    rewrite (proj2 (Z.ltb_lt attempt (MAX_RETRIES cfg))) by lia.
    rewrite (IH fuel (attempt + 1) (Some (msg attempt))).
    + cbn [app]. rewrite (Z.mul_comm (2 ^ (attempt - 1)) 1000). reflexivity.
    + intros a Ha. apply Hfail. lia.
    + rewrite <- Hok. f_equal. f_equal. lia.
    + lia.
    + lia.
Qed.

Lemma retry_loop_all_fail (msg : Z -> string) :
  forall (n fuel : nat) (attempt : Z) (lastError : option string),
    Z.of_nat n = Z.max 0 (MAX_RETRIES cfg + 1 - attempt) ->
    (forall a, attempt <= a <= MAX_RETRIES cfg ->
               executeClaude cfg (run a prompt) = inr (msg a)) ->
    (n <= fuel)%nat ->
    retry_loop cfg run prompt fuel attempt lastError
    = Some (inr (exhausted cfg
                   (match n with
                    | O => lastError
                    | S _ => Some (msg (MAX_RETRIES cfg))
                    end)),
            failed_trace 1000 n attempt).
Proof.
  induction n as [|n IH]; intros fuel attempt lastError Hn Hfail Hfuel.
  - assert (Hgt : MAX_RETRIES cfg < attempt) by lia.
    destruct fuel; cbn [retry_loop];
      rewrite (proj2 (Z.leb_gt _ _) Hgt); reflexivity.
  - destruct fuel as [|fuel]; [lia|].
    assert (Hle : attempt <= MAX_RETRIES cfg) by lia.
    cbn [retry_loop].
    rewrite (proj2 (Z.leb_le _ _) Hle).
    rewrite Hfail by lia.
    rewrite (IH fuel (attempt + 1) (Some (msg attempt))); [| lia | | lia].
    + destruct n as [|n].
      * assert (attempt = MAX_RETRIES cfg) as -> by lia.
        rewrite Z.ltb_irrefl. reflexivity.
      * rewrite (proj2 (Z.ltb_lt attempt (MAX_RETRIES cfg))) by lia.
        cbn [app failed_trace attempts_trace].
        rewrite (Z.mul_comm (2 ^ (attempt - 1)) 1000). reflexivity.
    + intros a Ha. apply Hfail. lia.
Qed.

(** The loop always returns: the fuel given by [executeWithRetry] is never
    used up. *)
Lemma retry_loop_total :
  forall (fuel : nat) (attempt : Z) (lastError : option string),
    MAX_RETRIES cfg + 1 - attempt <= Z.of_nat fuel ->
    exists r evs, retry_loop cfg run prompt fuel attempt lastError = Some (r, evs).
Proof.
  induction fuel as [|fuel IH]; intros attempt lastError Hfuel.
  - cbn [retry_loop]. rewrite (proj2 (Z.leb_gt _ _)) by lia. eauto.
  - cbn [retry_loop].
    destruct (attempt <=? MAX_RETRIES cfg)%Z; [|eauto].
    destruct (executeClaude cfg (run attempt prompt)) as [output|error]; [eauto|].
    destruct (IH (attempt + 1) (Some error)) as (r & evs & ->); [lia|eauto].
Qed.

Lemma executeWithRetry_total :
  exists r evs, executeWithRetry cfg run prompt = Some (r, evs).
Proof.
  apply retry_loop_total. unfold executeWithRetry_fuel. lia.
Qed.

(** C2.  If the subprocess fails on exactly the first [k] attempts and then
    succeeds, the overall outcome is a success if and only if
    [k + 1 <= maxRetries] (and then it is the output of attempt [k + 1],
    reached after a wait of [1000 * 2^(attempt - 1)] ms behind each failed
    attempt).  If every attempt fails, the outcome is the error whose
    message ends with the message of the last failure, after the same waits
    between consecutive attempts. *)
Theorem executeWithRetry_convergence (msg : Z -> string) :
  (forall (k : nat) (output : string),
     (forall a, 1 <= a <= Z.of_nat k ->
                executeClaude cfg (run a prompt) = inr (msg a)) ->
     executeClaude cfg (run (Z.of_nat k + 1) prompt) = inl output ->
     (succeeded (executeWithRetry cfg run prompt)
      <-> Z.of_nat k + 1 <= MAX_RETRIES cfg)
     /\ (Z.of_nat k + 1 <= MAX_RETRIES cfg ->
         executeWithRetry cfg run prompt
         = Some (inl output, attempts_trace 1000 k 1)))
  /\
  (1 <= MAX_RETRIES cfg ->
   (forall a, 1 <= a <= MAX_RETRIES cfg ->
              executeClaude cfg (run a prompt) = inr (msg a)) ->
   executeWithRetry cfg run prompt
   = Some (inr ("Claude CLI failed after " ++ JsString.of_Z (MAX_RETRIES cfg)
                ++ " attempts: " ++ msg (MAX_RETRIES cfg)),
           failed_trace 1000 (Z.to_nat (MAX_RETRIES cfg)) 1)).
Proof.
  split.
  - intros k output Hfail Hok.
    assert (Hwin : Z.of_nat k + 1 <= MAX_RETRIES cfg ->
                   executeWithRetry cfg run prompt
                   = Some (inl output, attempts_trace 1000 k 1)).
    { intros Hle. unfold executeWithRetry, executeWithRetry_fuel.
      apply (retry_loop_success msg output).
      - intros a Ha. apply Hfail. lia.
      - rewrite <- Hok. f_equal. f_equal. lia.
      - lia.
      - lia. }
    split; [split|exact Hwin].
    + intros (out & evs & Hr).
      destruct (Z_le_gt_dec (Z.of_nat k + 1) (MAX_RETRIES cfg)) as [Hle|Hgt];
        [exact Hle|exfalso].
      unfold executeWithRetry, executeWithRetry_fuel in Hr.
      rewrite (retry_loop_all_fail msg (Z.to_nat (MAX_RETRIES cfg))) in Hr.
      * discriminate Hr.
      * lia.
      * intros a Ha. apply Hfail. lia.
      * lia.
    + intros Hle. rewrite (Hwin Hle). exists output. eexists. reflexivity.
  - intros Hpos Hfail.
    unfold executeWithRetry, executeWithRetry_fuel.
    rewrite (retry_loop_all_fail msg (Z.to_nat (MAX_RETRIES cfg)));
      [| lia | exact Hfail | lia].
    destruct (Z.to_nat (MAX_RETRIES cfg)) eqn:Hn; [lia|].
    reflexivity.
Qed.

End RetryFacts.

Lemma executeWithRetry_convergence_witness :
  (ClaudeWrapper.succeeded
     (ClaudeWrapper.executeWithRetry Scenario.claude (Scenario.flaky "done") "p")
   <-> 2 + 1 <= 3)
  /\ ClaudeWrapper.executeWithRetry Scenario.claude Scenario.hanging "p"
     = Some (inr "Claude CLI failed after 3 attempts: Claude CLI timed out after 120000ms",
             [ClaudeWrapper.Spawn 1; ClaudeWrapper.Sleep 1000;
              ClaudeWrapper.Spawn 2; ClaudeWrapper.Sleep 2000;
              ClaudeWrapper.Spawn 3]).
Proof.
  split.
  - apply (proj1 (executeWithRetry_convergence Scenario.claude
                    (Scenario.flaky "done") "p"
                    (fun _ => "Claude CLI exited with code 1. stderr: boom"))
             2%nat "done").
    + intros a Ha. unfold Scenario.flaky.
      destruct (a <? 3)%Z eqn:Hlt; [reflexivity|].
      apply Z.ltb_ge in Hlt. exfalso. change (Z.of_nat 2) with 2 in Ha. lia.
    + reflexivity.
  - apply (proj2 (executeWithRetry_convergence Scenario.claude
                    Scenario.hanging "p"
                    (fun _ => "Claude CLI timed out after 120000ms"))).
    + vm_compute. discriminate.
    + intros a Ha. reflexivity.
Defined.

(** ** The extractors *)

Section ParseFacts.
Import JsString ClaudeWrapper.

Lemma prefix_cons a p b s :
  String.prefix (String a p) (String b s)
  = if ascii_dec a b then String.prefix p s else false.
Proof. reflexivity. Qed.

Lemma app_cons a p s : String a p ++ s = String a (p ++ s).
Proof. reflexivity. Qed.

Lemma app_nil s : "" ++ s = s.
Proof. reflexivity. Qed.

Lemma prefix_nil s : String.prefix "" s = true.
Proof. by destruct s. Qed.

Lemma prefix_app p s : String.prefix p (p ++ s) = true.
Proof.
  induction p as [|a p IH]; [by destruct s|].
  rewrite app_cons, prefix_cons. destruct (ascii_dec a a); [exact IH|congruence].
Qed.

Lemma includes_cons c s p :
  includes (String c s) p = String.prefix p (String c s) || includes s p.
Proof. reflexivity. Qed.

Ltac char_cases :=
  repeat match goal with
         | |- context [ascii_dec ?a ?b] =>
             destruct (ascii_dec a b); subst; try discriminate; try reflexivity
         | H : context [ascii_dec ?a ?b] |- _ =>
             destruct (ascii_dec a b); subst; try discriminate
         end.

Lemma close_fence_straddle c X rest :
  String.prefix close_fence (String c X) = false ->
  String.prefix close_fence (String c (X ++ close_fence ++ rest)) = false.
Proof.
  intros H. unfold close_fence, fence in *.
  destruct X as [|d [|e [|f X]]]; rewrite ?app_cons, ?app_nil;
    cbn [String.prefix] in *; char_cases.
  rewrite prefix_nil in H. discriminate.
Qed.

Lemma find_close_app X post :
  includes X close_fence = false ->
  find_close (X ++ close_fence ++ post) = Some X.
Proof.
  induction X as [|c X IH]; intros H.
  - rewrite app_nil. unfold find_close.
    destruct (close_fence ++ post) eqn:E; rewrite <- E, prefix_app; reflexivity.
  - rewrite includes_cons in H. apply orb_false_iff in H as [Hp Hi].
    rewrite app_cons. cbn [find_close].
    rewrite (close_fence_straddle c X post Hp).
    rewrite (IH Hi). reflexivity.
Qed.

Lemma skip_word_tag tag rest :
  all_word tag = true ->
  skip_word (tag ++ nl ++ rest) = (String.length tag, nl ++ rest).
Proof.
  induction tag as [|c tag IH]; intros H.
  - reflexivity.
  - cbn [all_word] in H. apply andb_true_iff in H as [Hc Ht].
    rewrite app_cons. cbn [skip_word String.length].
    rewrite Hc, (IH Ht). reflexivity.
Qed.

Lemma match_here_fence tag X post :
  all_word tag = true ->
  includes X close_fence = false ->
  match_here (fence ++ tag ++ nl ++ X ++ close_fence ++ post)
  = Some (X, (3 + String.length tag + 1 + String.length X + 4)%nat).
Proof.
  intros Ht HX. unfold match_here.
  rewrite prefix_app.
  change (substring_from 3 (fence ++ tag ++ nl ++ X ++ close_fence ++ post))
    with (tag ++ nl ++ X ++ close_fence ++ post).
  rewrite (skip_word_tag tag _ Ht).
  change (nl ++ X ++ close_fence ++ post)
    with (String LF (X ++ close_fence ++ post)).
  change (Ascii.eqb LF LF) with true. cbv iota.
  rewrite (find_close_app X post HX). reflexivity.
Qed.

Lemma match_here_straddle c p rest :
  String.prefix fence (String c p) = false ->
  match_here (String c (p ++ fence ++ rest)) = None.
Proof.
  intros H. unfold match_here, fence in *.
  destruct p as [|d [|e p]]; rewrite ?app_cons, ?app_nil;
    cbn [String.prefix] in *; char_cases.
  rewrite prefix_nil in H. discriminate.
Qed.

Lemma codeBlocks_from_pre pre rest :
  includes pre fence = false ->
  codeBlocks_from 0 (pre ++ fence ++ rest) = codeBlocks_from 0 (fence ++ rest).
Proof.
  induction pre as [|c pre IH]; intros H; [reflexivity|].
  rewrite includes_cons in H. apply orb_false_iff in H as [Hp Hi].
  rewrite app_cons. cbn [codeBlocks_from].
  rewrite (match_here_straddle c pre rest Hp). exact (IH Hi).
Qed.

Lemma first_block_fenced pre tag X post :
  includes pre fence = false ->
  all_word tag = true ->
  includes X close_fence = false ->
  first_block (fenced pre tag X post) = Some X.
Proof.
  intros Hpre Ht HX. unfold first_block, codeBlocks, fenced.
  rewrite (codeBlocks_from_pre pre _ Hpre).
  pose proof (match_here_fence tag X post Ht HX) as Hm.
  remember (tag ++ nl ++ X ++ close_fence ++ post) as r.
  unfold fence in *. rewrite !app_cons, app_nil in *.
  cbn [codeBlocks_from]. rewrite Hm. reflexivity.
Qed.

(** The code field only depends on the first block for the two actions that
    fill it. *)
Lemma parseOutput_code output action :
  action = "generate" \/ action = "optimize" ->
  code (parseOutput output action) = first_block output.
Proof.
  intros [-> | ->]; unfold parseOutput; cbn [String.eqb Ascii.eqb Bool.eqb];
    cbv iota; cbn [code analysis explanation];
    match goal with |- context [if ?b then _ else _] => destruct b end;
    reflexivity.
Qed.

(** C6, in the form the code satisfies.  For a text with one fenced block
    -- no fence before it,
    a hint of word characters, a content [X] that holds no newline followed
    by a fence -- parsing under generate or optimize yields [code = X], the
    content exactly as written; it is [trim X] only when [X] has no white
    space at its ends. *)
Theorem parseOutput_fenced_code pre tag X post action :
  action = "generate" \/ action = "optimize" ->
  includes pre fence = false ->
  all_word tag = true ->
  includes X close_fence = false ->
  code (parseOutput (fenced pre tag X post) action) = Some X
  /\ (code (parseOutput (fenced pre tag X post) action) = Some (trim X)
      <-> trim X = X).
Proof.
  intros Hact Hpre Ht HX.
  rewrite (parseOutput_code _ _ Hact), (first_block_fenced _ _ _ _ Hpre Ht HX).
  split; [reflexivity|].
  split; [intros [= H]; congruence | intros ->; reflexivity].
Qed.

Lemma parseOutput_fenced_code_witness :
  code (parseOutput (fenced ("Here you go:" ++ nl) "js" "  return a + b;" (nl ++ "Done."))
          "generate")
  = Some "  return a + b;".
Proof.
  apply (parseOutput_fenced_code ("Here you go:" ++ nl) "js" "  return a + b;"
           (nl ++ "Done.") "generate");
    [left; reflexivity | reflexivity | reflexivity | reflexivity].
Defined.

(** C6 in the specification's wording does not hold: the content of the
    block is not trimmed. *)
Lemma parseOutput_code_not_trimmed :
  ~ (forall pre tag X post action,
       action = "generate" \/ action = "optimize" ->
       includes pre fence = false ->
       all_word tag = true ->
       includes X close_fence = false ->
       code (parseOutput (fenced pre tag X post) action) = Some (trim X)).
Proof.
  intros H.
  specialize (H "" "" " x" "" "generate"
                (or_introl eq_refl) eq_refl eq_refl eq_refl).
  vm_compute in H. discriminate H.
Qed.

(** C7, in the form the code satisfies.  Parsing the empty text returns,
    for every action, a
    result with [explanation = ""] and no [code]; under generate nothing
    else is set, under optimize [suggestions] is the one-element list of the
    empty text, under analyze and review [analysis] is the empty text and
    [suggestions] that same list. *)
Theorem parseOutput_empty :
  (forall action,
     explanation (parseOutput "" action) = Some ""
     /\ code (parseOutput "" action) = None)
  /\ parseOutput "" "generate"
     = {| code := None; analysis := None; suggestions := None;
          explanation := Some "" |}
  /\ parseOutput "" "optimize"
     = {| code := None; analysis := None; suggestions := Some [""];
          explanation := Some "" |}
  /\ parseOutput "" "analyze"
     = {| code := None; analysis := Some ""; suggestions := Some [""];
          explanation := Some "" |}
  /\ parseOutput "" "review"
     = {| code := None; analysis := Some ""; suggestions := Some [""];
          explanation := Some "" |}.
Proof.
  split; [|repeat split; reflexivity].
  intros action. unfold parseOutput.
  destruct (String.eqb action "generate"); [split; reflexivity|].
  destruct (String.eqb action "analyze"); [split; reflexivity|].
  destruct (String.eqb action "optimize"); [split; reflexivity|].
  destruct (String.eqb action "review"); split; reflexivity.
Qed.

(** C7 in the specification's wording does not hold: under analyze the
    empty text sets [analysis] and
    [suggestions] too. *)
Lemma parseOutput_empty_sets_other_fields :
  ~ (forall action,
       parseOutput "" action
       = {| code := None; analysis := None; suggestions := None;
            explanation := Some "" |}).
Proof.
  intros H. specialize (H "analyze"). vm_compute in H. discriminate H.
Qed.

(** A numbered line keeps its marker: the class of [strip_marker] takes one
    character, and behind the first digit comes a digit or the dot, never
    white space. *)
Lemma strip_marker_numbered line :
  numbered_line line = true -> strip_marker line = line.
Proof.
  destruct line as [|c [|d r]]; [reflexivity..|].
  unfold numbered_line, strip_marker. intros H.
  apply andb_true_iff in H as [Hc H]. cbn [skip_digits] in H.
  destruct (is_space d) eqn:Hd; [|by rewrite andb_false_r].
  exfalso.
  assert (Hnd : is_digit d = false).
  { revert Hd. unfold is_space, is_digit, code.
    destruct d as [[] [] [] [] [] [] [] []]; vm_compute; congruence. }
  rewrite Hnd in H.
  assert (Hdot : Ascii.eqb d "." = false).
  { revert Hd. unfold is_space, code.
    destruct d as [[] [] [] [] [] [] [] []]; vm_compute; congruence. }
  destruct r; cbv iota in H; rewrite ?Hdot in H; discriminate H.
Qed.

(** C5, against the specification: under optimize the bullet lines lose their
    marker, the numbered line does not. *)
Theorem optimize_numbered_marker_kept :
  suggestions (parseOutput ("- a" ++ nl ++ "- b") "optimize") = Some ["a"; "b"]
  /\ suggestions (parseOutput "1. improve x" "optimize")
     = Some ["1. improve x"].
Proof. split; reflexivity. Qed.

End ParseFacts.

(** ** Authentication *)

Section AuthFacts.
Import JsString Auth.

(** What the Referer check compares with the allow-list: scheme and host
    name, without the port. *)
Lemma validateAuth_referer cfg request key referer u :
  headers request !! "authorization" = Some ("Bearer " ++ key) ->
  key <> "" ->
  key = API_SECRET cfg ->
  headers request !! "origin" = None ->
  headers request !! "referer" = Some referer ->
  referer <> "" ->
  Url.parse referer = Some u ->
  valid (validateAuth cfg request)
  = origin_allowed cfg (Url.protocol u ++ "//" ++ Url.hostname u).
Proof.
  intros Hauth Hne Hkey Horigin Href Hrne Hparse.
  assert (Hsub : substring_from 7 ("Bearer " ++ key) = key) by reflexivity.
  assert (Hst : startsWith ("Bearer " ++ key) "Bearer " = true)
    by apply prefix_app.
  assert (Htr : truthy ("Bearer " ++ key) = true) by reflexivity.
  remember ("Bearer " ++ key) as h eqn:Hh. clear Hh.
  unfold validateAuth.
  rewrite Hauth, Horigin, Href. cbn [from_option id truthy_opt andb].
  rewrite Hsub, Hst, Htr. cbn [negb orb].
  assert (Hk : truthy key = true).
  { unfold truthy. destruct (String.eqb_spec key ""); [contradiction|reflexivity]. }
  rewrite Hk, <- Hkey, String.eqb_refl. cbn [negb orb].
  assert (Hr : truthy referer = true).
  { unfold truthy. destruct (String.eqb_spec referer ""); [contradiction|reflexivity]. }
  rewrite Hr, Hparse.
  destruct (origin_allowed cfg _); reflexivity.
Qed.

(** C8, against the specification.  A Referer on port 8443 of an allowed host is
    accepted although its origin is not in the allow-list; a Referer whose
    origin, port included, is in the allow-list is rejected. *)
Theorem validateAuth_referer_port_dropped :
  (Url.origin <$> Url.parse "https://script.google.com:8443/macros"
   = Some "https://script.google.com:8443"
   /\ origin_allowed Scenario.security "https://script.google.com:8443" = false
   /\ valid (validateAuth Scenario.security
               (Scenario.referred "https://script.google.com:8443/macros"))
      = true)
  /\
  (Url.origin <$> Url.parse "http://localhost:3000/app"
   = Some "http://localhost:3000"
   /\ origin_allowed Scenario.local_security "http://localhost:3000" = true
   /\ validateAuth Scenario.local_security
        (Scenario.referred "http://localhost:3000/app")
      = reject "Referer not allowed").
Proof. repeat split; vm_compute; reflexivity. Qed.

End AuthFacts.

(** ** The handler *)

Section PostFacts.
Import Route.

Variables (cfg : Settings) (w : World) (request : NextRequest)
          (requests : RateLimiter.store).

Lemma execute_total (o : ClaudeWrapper.ClaudeExecutionOptions) :
  exists r evs,
    ClaudeWrapper.execute (claude_config cfg) (staging w) (run w) o
    = Some (r, evs).
Proof.
  unfold ClaudeWrapper.execute.
  destruct (staging w) as [m|]; [eauto|].
  cbn [ClaudeWrapper.buildCommandAndPrompt].
  destruct (executeWithRetry_total (claude_config cfg) (run w)
              (ClaudeWrapper.actionPrompt (ClaudeWrapper.action o)
               ++ JsString.nl ++ JsString.nl ++ ClaudeWrapper.formatPrompt o))
    as (r & evs & ->).
  destruct r; eauto.
Qed.

Lemma execute_success (o : ClaudeWrapper.ClaudeExecutionOptions)
    (result : ClaudeWrapper.ClaudeExecutionResult)
    (evs : list ClaudeWrapper.Event) :
  ClaudeWrapper.execute (claude_config cfg) (staging w) (run w) o
  = Some (inl result, evs) ->
  exists output,
    ClaudeWrapper.executeWithRetry (claude_config cfg) (run w)
      (snd (ClaudeWrapper.buildCommandAndPrompt (ClaudeWrapper.action o)
              (ClaudeWrapper.formatPrompt o)))
    = Some (inl output, evs)
    /\ result = ClaudeWrapper.parseOutput output (ClaudeWrapper.action o).
Proof.
  unfold ClaudeWrapper.execute.
  destruct (staging w) as [m|]; [discriminate|].
  cbn [ClaudeWrapper.buildCommandAndPrompt snd].
  destruct (ClaudeWrapper.executeWithRetry _ _ _) as [[[output|m] evs']|];
    [|discriminate..].
  intros [= <- <-]. exists output. split; reflexivity.
Qed.

Lemma POST_unauthorized :
  Auth.valid (authResult_of cfg request) = false ->
  POST cfg w request requests
  = Some (failure STATUS_UNAUTHORIZED UNAUTHORIZED
            (JsString.or_else (Auth.message (authResult_of cfg request))
               "Invalid authentication")
            (sessionId_of w request),
          requests, []).
Proof.
  unfold POST, authResult_of, sessionId_of. intros ->. reflexivity.
Qed.

Lemma POST_rate_limited :
  Auth.valid (authResult_of cfg request) = true ->
  RateLimiter.allowed (fst (rateLimit_of cfg w request requests)) = false ->
  POST cfg w request requests
  = Some (failure TOO_MANY_REQUESTS RATE_LIMIT_EXCEEDED
            (rate_message (fst (rateLimit_of cfg w request requests)))
            (sessionId_of w request),
          requests, []).
Proof.
  unfold POST, rateLimit_of, clientId_of, authResult_of, sessionId_of.
  intros -> Hd. cbn [negb].
  destruct (check_cases (rate_limits cfg) (now w)
              (JsString.or_else
                 (Auth.clientId (Auth.validateAuth (security cfg) (incoming request)))
                 "anonymous") requests)
    as [(_ & _ & Hs)|(_ & Ha & _)]; [|congruence].
  destruct (RateLimiter.check _ _ _ _) as [r s]. cbn [fst snd] in *.
  rewrite Hd. cbn [negb]. subst s. reflexivity.
Qed.

Lemma POST_admitted :
  Auth.valid (authResult_of cfg request) = true ->
  RateLimiter.allowed (fst (rateLimit_of cfg w request requests)) = true ->
  POST cfg w request requests
  = match body request with
    | inr m =>
        Some (caught cfg m (sessionId_of w request),
              snd (rateLimit_of cfg w request requests), [])
    | inl b =>
        if negb (valid (validateRequest (MAX_PROMPT_LENGTH cfg) b)) then
          Some (failure BAD_REQUEST INVALID_REQUEST
                  (JsString.or_else
                     (message (validateRequest (MAX_PROMPT_LENGTH cfg) b))
                     "Invalid request format")
                  (sessionId_of w request),
                snd (rateLimit_of cfg w request requests), [])
        else
          match ClaudeWrapper.execute (claude_config cfg) (staging w) (run w)
                  (to_options b) with
          | None => None
          | Some (inr m, evs) =>
              Some (caught cfg m (sessionId_of w request),
                    snd (rateLimit_of cfg w request requests), evs)
          | Some (inl result, evs) =>
              Some (succeed result (sessionId_of w request),
                    RateLimiter.recordSuccess (rate_limits cfg)
                      (clientId_of cfg request)
                      (snd (rateLimit_of cfg w request requests)),
                    evs)
          end
    end.
Proof.
  unfold POST, rateLimit_of, clientId_of, authResult_of, sessionId_of.
  intros -> Ha. cbn [negb].
  destruct (RateLimiter.check _ _ _ _) as [r s]. cbn [fst snd] in *.
  rewrite Ha. cbn [negb]. reflexivity.
Qed.

(** C4, in the form the code satisfies.  The handler authenticates first,
    then checks the rate
    limit, then validates the shape of the body, then executes; the first
    failing stage answers with its error envelope.  A rejection by
    authentication or by the limiter leaves the store as it was and spawns
    nothing; a body that fails validation is rejected with nothing spawned,
    after the limiter has recorded the request's timestamp.  A result of
    the execution is the extraction of what the subprocess printed. *)
Theorem POST_stage_order :
  (Auth.valid (authResult_of cfg request) = false ->
   POST cfg w request requests
   = Some (failure STATUS_UNAUTHORIZED UNAUTHORIZED
             (JsString.or_else (Auth.message (authResult_of cfg request))
                "Invalid authentication")
             (sessionId_of w request),
           requests, []))
  /\
  (Auth.valid (authResult_of cfg request) = true ->
   RateLimiter.allowed (fst (rateLimit_of cfg w request requests)) = false ->
   POST cfg w request requests
   = Some (failure TOO_MANY_REQUESTS RATE_LIMIT_EXCEEDED
             (rate_message (fst (rateLimit_of cfg w request requests)))
             (sessionId_of w request),
           requests, []))
  /\
  (forall b,
     Auth.valid (authResult_of cfg request) = true ->
     RateLimiter.allowed (fst (rateLimit_of cfg w request requests)) = true ->
     body request = inl b ->
     valid (validateRequest (MAX_PROMPT_LENGTH cfg) b) = false ->
     POST cfg w request requests
     = Some (failure BAD_REQUEST INVALID_REQUEST
               (JsString.or_else
                  (message (validateRequest (MAX_PROMPT_LENGTH cfg) b))
                  "Invalid request format")
               (sessionId_of w request),
             snd (rateLimit_of cfg w request requests), [])
     /\ RateLimiter.bucket (snd (rateLimit_of cfg w request requests))
          (clientId_of cfg request)
        = (RateLimiter.in_window
             (now w - RateLimiter.WINDOW_MS (rate_limits cfg))
             (RateLimiter.bucket requests (clientId_of cfg request))
           ++ [now w])%list)
  /\
  (forall b,
     Auth.valid (authResult_of cfg request) = true ->
     RateLimiter.allowed (fst (rateLimit_of cfg w request requests)) = true ->
     body request = inl b ->
     valid (validateRequest (MAX_PROMPT_LENGTH cfg) b) = true ->
     exists r evs,
       ClaudeWrapper.execute (claude_config cfg) (staging w) (run w)
         (to_options b) = Some (r, evs)
       /\ POST cfg w request requests
          = Some (match r with
                  | inl result =>
                      (succeed result (sessionId_of w request),
                       RateLimiter.recordSuccess (rate_limits cfg)
                         (clientId_of cfg request)
                         (snd (rateLimit_of cfg w request requests)))
                  | inr m =>
                      (caught cfg m (sessionId_of w request),
                       snd (rateLimit_of cfg w request requests))
                  end, evs)
       /\ (forall result,
            r = inl result ->
            exists output,
              ClaudeWrapper.executeWithRetry (claude_config cfg) (run w)
                (snd (ClaudeWrapper.buildCommandAndPrompt
                        (ClaudeWrapper.action (to_options b))
                        (ClaudeWrapper.formatPrompt (to_options b))))
              = Some (inl output, evs)
              /\ result = ClaudeWrapper.parseOutput output
                            (ClaudeWrapper.action (to_options b)))).
Proof.
  split; [exact POST_unauthorized|].
  split; [exact POST_rate_limited|].
  split.
  - intros b Hv Ha Hb Hbad. split.
    + rewrite (POST_admitted Hv Ha), Hb, Hbad. reflexivity.
    + unfold rateLimit_of in *.
      destruct (check_cases (rate_limits cfg) (now w) (clientId_of cfg request)
                  requests) as [(_ & Hd & _)|(_ & _ & Hs)]; [congruence|].
      rewrite Hs. apply bucket_insert.
  - intros b Hv Ha Hb Hgood.
    rewrite (POST_admitted Hv Ha), Hb, Hgood. cbn [negb].
    destruct (execute_total (to_options b)) as (r & evs & He).
    exists r, evs. rewrite He. split; [reflexivity|]. split.
    + destruct r; reflexivity.
    + intros result ->. exact (execute_success _ _ _ He).
Qed.

(** C3, in the form the code satisfies.  When the subprocess fails on
    every attempt, by a
    timeout or otherwise, a request that has passed authentication, the
    limiter and validation is answered with the generic internal-error
    code and status; the message is the wrapper's, ending with the last
    failure's, in development and a fixed one elsewhere. *)
Theorem POST_subprocess_failure (b : json) (msg : Z -> string) :
  Auth.valid (authResult_of cfg request) = true ->
  RateLimiter.allowed (fst (rateLimit_of cfg w request requests)) = true ->
  body request = inl b ->
  valid (validateRequest (MAX_PROMPT_LENGTH cfg) b) = true ->
  staging w = None ->
  1 <= ClaudeWrapper.MAX_RETRIES (claude_config cfg) ->
  (forall a p, 1 <= a <= ClaudeWrapper.MAX_RETRIES (claude_config cfg) ->
               ClaudeWrapper.executeClaude (claude_config cfg) (run w a p)
               = inr (msg a)) ->
  POST cfg w request requests
  = Some (failure STATUS_INTERNAL_SERVER_ERROR INTERNAL_SERVER_ERROR
            (if development cfg
             then "Claude CLI failed after "
                  ++ JsString.of_Z (ClaudeWrapper.MAX_RETRIES (claude_config cfg))
                  ++ " attempts: "
                  ++ msg (ClaudeWrapper.MAX_RETRIES (claude_config cfg))
             else "An unexpected error occurred")
            (sessionId_of w request),
          snd (rateLimit_of cfg w request requests),
          ClaudeWrapper.failed_trace 1000
            (Z.to_nat (ClaudeWrapper.MAX_RETRIES (claude_config cfg))) 1).
Proof.
  intros Hv Ha Hb Hgood Hst Hpos Hfail.
  rewrite (POST_admitted Hv Ha), Hb, Hgood. cbn [negb].
  unfold ClaudeWrapper.execute. rewrite Hst.
  cbn [ClaudeWrapper.buildCommandAndPrompt].
  unfold ClaudeWrapper.executeWithRetry, ClaudeWrapper.executeWithRetry_fuel.
  rewrite (retry_loop_all_fail (claude_config cfg) (run w) _ msg
             (Z.to_nat (ClaudeWrapper.MAX_RETRIES (claude_config cfg))));
    [| lia | intros a Ha'; apply Hfail; exact Ha' | lia].
  destruct (Z.to_nat (ClaudeWrapper.MAX_RETRIES (claude_config cfg))) eqn:Hn;
    [lia|].
  reflexivity.
Qed.

End PostFacts.

Lemma POST_subprocess_failure_witness :
  Route.POST (Scenario.settings false) (Scenario.world Scenario.hanging)
    (Scenario.request Scenario.authorized Scenario.generate_body) ∅
  = Some (Route.failure Route.STATUS_INTERNAL_SERVER_ERROR
            Route.INTERNAL_SERVER_ERROR "An unexpected error occurred"
            "sess_5_abc",
          snd (Route.rateLimit_of (Scenario.settings false)
                 (Scenario.world Scenario.hanging)
                 (Scenario.request Scenario.authorized Scenario.generate_body)
                 ∅),
          [ClaudeWrapper.Spawn 1; ClaudeWrapper.Sleep 1000;
           ClaudeWrapper.Spawn 2; ClaudeWrapper.Sleep 2000;
           ClaudeWrapper.Spawn 3]).
Proof.
  apply (POST_subprocess_failure (Scenario.settings false)
           (Scenario.world Scenario.hanging)
           (Scenario.request Scenario.authorized Scenario.generate_body) ∅
           Scenario.generate_body
           (fun _ => "Claude CLI timed out after 120000ms")).
  - reflexivity.
  - reflexivity.
  - reflexivity.
  - reflexivity.
  - reflexivity.
  - vm_compute. discriminate.
  - intros a p Ha. reflexivity.
Defined.

(** C3 in the specification's wording does not hold: when every attempt
    times out the envelope's code
    is the generic one, not the timeout code. *)
Lemma POST_timeout_is_internal_error :
  ~ (forall cfg w request requests resp requests' evs,
       (forall a p, Route.run w a p = ClaudeWrapper.Hung) ->
       evs <> [] ->
       Route.POST cfg w request requests = Some (resp, requests', evs) ->
       Route.error_code resp = Some Route.TIMEOUT_ERROR).
Proof.
  intros H.
  assert (E : exists resp requests',
             Route.POST (Scenario.settings false)
               (Scenario.world Scenario.hanging)
               (Scenario.request Scenario.authorized Scenario.generate_body) ∅
             = Some (resp, requests',
                     [ClaudeWrapper.Spawn 1; ClaudeWrapper.Sleep 1000;
                      ClaudeWrapper.Spawn 2; ClaudeWrapper.Sleep 2000;
                      ClaudeWrapper.Spawn 3])
             /\ Route.error_code resp = Some Route.INTERNAL_SERVER_ERROR).
  { eexists _, _. split; reflexivity. }
  destruct E as (resp & requests' & E & Hcode).
  apply (H (Scenario.settings false) (Scenario.world Scenario.hanging)) in E;
    [| intros a p; reflexivity | discriminate].
  rewrite Hcode in E. discriminate E.
Qed.

Lemma POST_stage_order_witness :
  Route.POST (Scenario.settings false) (Scenario.world Scenario.hanging)
    (Scenario.request Scenario.intruder Scenario.shapeless_body) ∅
  = Some (Route.failure Route.STATUS_UNAUTHORIZED Route.UNAUTHORIZED
            "Invalid API key" "sess_5_abc", ∅, [])
  /\
  Route.POST (Scenario.settings false) (Scenario.world Scenario.hanging)
    (Scenario.request Scenario.authorized Scenario.shapeless_body)
    {["client_877juu" := [3; 4]]}
  = Some (Route.failure Route.TOO_MANY_REQUESTS Route.RATE_LIMIT_EXCEEDED
            "Rate limit exceeded. Remaining: 0, Reset in: 60s" "sess_5_abc",
          {["client_877juu" := [3; 4]]}, [])
  /\
  RateLimiter.bucket
    (snd (Route.rateLimit_of (Scenario.settings false)
            (Scenario.world Scenario.hanging)
            (Scenario.request Scenario.authorized Scenario.shapeless_body) ∅))
    (Route.clientId_of (Scenario.settings false)
       (Scenario.request Scenario.authorized Scenario.shapeless_body))
  = [5]
  /\
  exists r evs,
    ClaudeWrapper.execute Scenario.claude None (Scenario.flaky "ok")
      (Route.to_options Scenario.generate_body) = Some (r, evs)
    /\ Route.POST (Scenario.settings false)
         (Scenario.world (Scenario.flaky "ok"))
         (Scenario.request Scenario.authorized Scenario.generate_body) ∅
       = Some (match r with
               | inl result =>
                   (Route.succeed result "sess_5_abc",
                    RateLimiter.recordSuccess (Scenario.limits false)
                      "client_877juu"
                      (snd (Route.rateLimit_of (Scenario.settings false)
                              (Scenario.world (Scenario.flaky "ok"))
                              (Scenario.request Scenario.authorized
                                 Scenario.generate_body) ∅)))
               | inr m =>
                   (Route.caught (Scenario.settings false) m "sess_5_abc",
                    snd (Route.rateLimit_of (Scenario.settings false)
                           (Scenario.world (Scenario.flaky "ok"))
                           (Scenario.request Scenario.authorized
                              Scenario.generate_body) ∅))
               end, evs).
Proof.
  split; [|split; [|split]].
  - apply (proj1 (POST_stage_order (Scenario.settings false)
                    (Scenario.world Scenario.hanging)
                    (Scenario.request Scenario.intruder Scenario.shapeless_body)
                    ∅)).
    reflexivity.
  - etransitivity.
    + apply (proj1 (proj2 (POST_stage_order (Scenario.settings false)
                      (Scenario.world Scenario.hanging)
                      (Scenario.request Scenario.authorized
                         Scenario.shapeless_body)
                      {["client_877juu" := [3; 4]]})));
        reflexivity.
    + vm_compute. reflexivity.
  - etransitivity.
    + apply (proj1 (proj2 (proj2 (POST_stage_order (Scenario.settings false)
                      (Scenario.world Scenario.hanging)
                      (Scenario.request Scenario.authorized
                         Scenario.shapeless_body)
                      ∅))) Scenario.shapeless_body);
        reflexivity.
    + vm_compute. reflexivity.
  - destruct (proj2 (proj2 (proj2 (POST_stage_order (Scenario.settings false)
                    (Scenario.world (Scenario.flaky "ok"))
                    (Scenario.request Scenario.authorized Scenario.generate_body)
                    ∅))) Scenario.generate_body)
      as (r & evs & He & Hp & _); [reflexivity..|].
    exists r, evs. split; [exact He | exact Hp].
Defined.

(** C4 in the specification's wording does not hold: a body that fails
    shape validation, sent with a
    good credential, is rejected after the limiter has recorded it. *)
Lemma POST_invalid_body_is_recorded :
  ~ (forall cfg w request requests b resp requests' evs,
       Route.body request = inl b ->
       Route.valid (Route.validateRequest (Route.MAX_PROMPT_LENGTH cfg) b)
       = false ->
       Route.POST cfg w request requests = Some (resp, requests', evs) ->
       requests' = requests).
Proof.
  intros H.
  specialize (H (Scenario.settings false) (Scenario.world Scenario.hanging)
                (Scenario.request Scenario.authorized Scenario.shapeless_body)
                ∅ Scenario.shapeless_body _ _ _ eq_refl eq_refl eq_refl).
  apply (f_equal (fun m : RateLimiter.store => m !! "client_877juu")) in H.
  vm_compute in H. discriminate H.
Qed.

(** ** More on the rate limiter *)

Lemma recordSuccess_inserted (cfg : RateLimiter.RATE_LIMITS) (clientId : string)
    (l : list Z) (now : Z) (requests : RateLimiter.store) :
  RateLimiter.bucket
    (RateLimiter.recordSuccess cfg clientId (<[clientId := (l ++ [now])%list]> requests))
    clientId
  = if RateLimiter.SKIP_SUCCESS cfg then l else (l ++ [now])%list.
Proof.
  unfold RateLimiter.recordSuccess.
  destruct (RateLimiter.SKIP_SUCCESS cfg); [|apply bucket_insert].
  fold (RateLimiter.bucket (<[clientId := (l ++ [now])%list]> requests) clientId).
  rewrite bucket_insert.
  rewrite bool_decide_eq_true_2 by (rewrite length_app; cbn; lia).
  rewrite bucket_insert. apply removelast_last.
Qed.

Lemma recordSuccess_other (cfg : RateLimiter.RATE_LIMITS) (clientId other : string)
    (requests : RateLimiter.store) :
  other <> clientId ->
  RateLimiter.recordSuccess cfg clientId requests !! other = requests !! other.
Proof.
  intros Hne. unfold RateLimiter.recordSuccess.
  destruct (RateLimiter.SKIP_SUCCESS cfg); [|reflexivity].
  case_bool_decide; [|reflexivity].
  apply lookup_insert_ne. congruence.
Qed.

Section RateLimiterMore.
Import RateLimiter.

Implicit Types (cfg : RATE_LIMITS) (requests : store) (l : list Z).

Lemma check_decision_kept cfg now clientId requests1 requests2 :
  in_window (now - WINDOW_MS cfg) (bucket requests1 clientId)
  = in_window (now - WINDOW_MS cfg) (bucket requests2 clientId) ->
  fst (check cfg now clientId requests1) = fst (check cfg now clientId requests2).
Proof.
  intros Hkept. unfold check.
  fold (bucket requests1 clientId) (bucket requests2 clientId).
  rewrite Hkept. destruct (bool_decide _); reflexivity.
Qed.

Lemma in_window_in w l x : In x (in_window w l) <-> In x l /\ w < x.
Proof.
  unfold in_window. rewrite <- !list_elem_of_In, list_elem_of_filter. tauto.
Qed.

Lemma in_window_nested w1 w2 l :
  w1 <= w2 -> in_window w2 (in_window w1 l) = in_window w2 l.
Proof.
  intros Hle. unfold in_window.
  induction l as [|x l IH]; [reflexivity|].
  rewrite !filter_cons.
  destruct (decide (w1 < x)) as [H1|H1]; destruct (decide (w2 < x)) as [H2|H2];
    rewrite ?filter_cons; try (exfalso; lia).
  - rewrite decide_True by exact H2. by rewrite IH.
  - rewrite decide_False by exact H2. exact IH.
  - exact IH.
Qed.

Lemma in_window_none w l :
  Forall (fun t => t <= w) l -> in_window w l = [].
Proof.
  unfold in_window. induction 1 as [|x l Hx _ IH]; [reflexivity|].
  rewrite filter_cons, decide_False by lia. exact IH.
Qed.

Lemma Math_min_spec l :
  l <> [] ->
  exists m, Math_min l = Fin m /\ In m l /\ forall x, In x l -> m <= x.
Proof.
  induction l as [|a l IH]; [congruence|]. intros _.
  destruct l as [|b l].
  - exists a. cbn. split; [reflexivity|]. split; [auto|]. intros x [->|[]]. lia.
  - destruct IH as (m & Hm & Hin & Hle); [congruence|].
    change (Math_min (a :: b :: l)) with (jsnum_min (Fin a) (Math_min (b :: l))).
    rewrite Hm. cbn [jsnum_min].
    exists (Z.min a m). split; [reflexivity|]. split.
    + destruct (Z.min_spec a m) as [[_ ->]|[_ ->]]; [left; reflexivity|right; exact Hin].
    + intros x [->|Hx]; [lia|]. specialize (Hle x Hx). lia.
Qed.

(** [check] reads and writes the bucket of its own client only. *)
Theorem check_other_clients cfg now clientId other requests :
  other <> clientId ->
  snd (check cfg now clientId requests) !! other = requests !! other.
Proof.
  intros Hne.
  destruct (check_cases cfg now clientId requests) as [(_ & _ & ->)|(_ & _ & ->)];
    [reflexivity|].
  apply lookup_insert_ne. congruence.
Qed.

Lemma check_other_clients_witness :
  snd (check (Scenario.limits false) 5 "c1" {["c2" := [1; 2]]}) !! "c2"
  = ({["c2" := [1; 2]]} : store) !! "c2".
Proof.
  apply (check_other_clients (Scenario.limits false) 5 "c1" "c2").
  discriminate.
Defined.

(** The remaining count reported is never negative and never more than
    one below the maximum. *)
Theorem check_remaining_bounds cfg now clientId requests :
  0 <= remaining (fst (check cfg now clientId requests))
    <= Z.max 0 (MAX_REQUESTS cfg - 1).
Proof.
  pose proof (check_cases cfg now clientId requests) as Hc. cbv zeta in Hc.
  destruct Hc as [(Hle & _ & _)|(Hlt & _ & _)].
  - rewrite check_denied by exact Hle. cbn [fst remaining]. lia.
  - rewrite check_allowed by exact Hlt. cbn [fst remaining].
    rewrite length_app. cbn [length].
    revert Hlt.
    generalize (length (in_window (now - WINDOW_MS cfg) (bucket requests clientId))).
    intros n Hlt. lia.
Qed.

(** A denial under a positive maximum names the moment the oldest counted
    timestamp leaves the window: the reset time is that timestamp plus the
    window width minus now, and it is positive. *)
Theorem check_denied_reset_time cfg now clientId requests :
  1 <= MAX_REQUESTS cfg ->
  allowed (fst (check cfg now clientId requests)) = false ->
  exists oldest,
    In oldest (bucket requests clientId)
    /\ now - WINDOW_MS cfg < oldest
    /\ (forall t, In t (bucket requests clientId) ->
                  now - WINDOW_MS cfg < t -> oldest <= t)
    /\ resetTime (fst (check cfg now clientId requests))
       = Fin (oldest + WINDOW_MS cfg - now)
    /\ 0 < oldest + WINDOW_MS cfg - now.
Proof.
  intros Hpos Hdenied.
  pose proof (check_cases cfg now clientId requests) as Hc. cbv zeta in Hc.
  destruct Hc as [(Hle & _ & _)|(_ & Ha & _)]; [|congruence].
  rewrite check_denied by exact Hle. cbn [fst resetTime].
  destruct (Math_min_spec (in_window (now - WINDOW_MS cfg) (bucket requests clientId)))
    as (m & Hm & Hin & Hmin).
  { intros Hnil. rewrite Hnil in Hle. cbn in Hle. lia. }
  apply in_window_in in Hin as [Hin Hw].
  exists m. split; [exact Hin|]. split; [exact Hw|]. split.
  - intros t Ht Htw. apply Hmin. apply in_window_in. auto.
  - rewrite Hm. cbn [jsnum_add jsnum_max]. split; [f_equal; lia | lia].
Qed.

Lemma check_denied_reset_time_witness :
  exists oldest,
    In oldest [0; 10]
    /\ resetTime (fst (check (Scenario.limits false) 20 "c1" {["c1" := [0; 10]]}))
       = Fin (oldest + 60000 - 20).
Proof.
  destruct (check_denied_reset_time (Scenario.limits false) 20 "c1"
              {["c1" := [0; 10]]}) as (oldest & Hin & _ & _ & Hr & _).
  - vm_compute. discriminate.
  - reflexivity.
  - exists oldest. split; [exact Hin | exact Hr].
Defined.

(** A limiter configured with a maximum of zero or less denies every
    request, and a client without counted timestamps is told to wait
    forever. *)
Theorem check_nonpositive_maximum cfg now clientId requests :
  MAX_REQUESTS cfg <= 0 ->
  allowed (fst (check cfg now clientId requests)) = false
  /\ snd (check cfg now clientId requests) = requests
  /\ (in_window (now - WINDOW_MS cfg) (bucket requests clientId) = [] ->
      resetTime (fst (check cfg now clientId requests)) = PosInf).
Proof.
  intros Hmax.
  assert (Hle : MAX_REQUESTS cfg
                <= Z.of_nat (length (in_window (now - WINDOW_MS cfg)
                                       (bucket requests clientId)))) by lia.
  rewrite check_denied by exact Hle. cbn [fst snd allowed resetTime].
  split; [reflexivity|]. split; [reflexivity|].
  intros ->. reflexivity.
Qed.

Lemma check_nonpositive_maximum_witness :
  allowed (fst (check {| WINDOW_MS := 60000; MAX_REQUESTS := 0;
                         SKIP_SUCCESS := false |} 5 "c1" ∅)) = false
  /\ resetTime (fst (check {| WINDOW_MS := 60000; MAX_REQUESTS := 0;
                              SKIP_SUCCESS := false |} 5 "c1" ∅)) = PosInf.
Proof.
  destruct (check_nonpositive_maximum
              {| WINDOW_MS := 60000; MAX_REQUESTS := 0; SKIP_SUCCESS := false |}
              5 "c1" ∅) as (Ha & _ & Hr).
  - vm_compute. discriminate.
  - split; [exact Ha | apply Hr; reflexivity].
Defined.

(** Once every stored timestamp of a client has left the window, the next
    request is admitted, the bucket is just that request, and all but one
    of the maximum remain. *)
Theorem check_after_window cfg now clientId requests :
  1 <= MAX_REQUESTS cfg ->
  Forall (fun t => t <= now - WINDOW_MS cfg) (bucket requests clientId) ->
  check cfg now clientId requests
  = ({| allowed := true; remaining := MAX_REQUESTS cfg - 1;
        resetTime := Fin (WINDOW_MS cfg) |},
     <[clientId := [now]]> requests).
Proof.
  intros Hpos Hold.
  rewrite check_allowed; rewrite (in_window_none _ _ Hold).
  - reflexivity.
  - cbn. lia.
Qed.

Lemma check_after_window_witness :
  check (Scenario.limits false) 61000 "c1" {["c1" := [0; 10]]}
  = ({| allowed := true; remaining := 2 - 1; resetTime := Fin 60000 |},
     <["c1" := [61000]]> {["c1" := [0; 10]]}).
Proof.
  apply (check_after_window (Scenario.limits false) 61000 "c1" {["c1" := [0; 10]]}).
  - vm_compute. discriminate.
  - repeat constructor; vm_compute; discriminate.
Defined.

Lemma cleanup_lookup cfg now requests clientId :
  cleanup cfg now requests !! clientId
  = match requests !! clientId with
    | Some reqs =>
        if bool_decide (length (in_window (now - WINDOW_MS cfg) reqs) = 0%nat)
        then None
        else Some (in_window (now - WINDOW_MS cfg) reqs)
    | None => None
    end.
Proof.
  unfold cleanup. rewrite lookup_omap.
  destruct (requests !! clientId); reflexivity.
Qed.

Lemma bucket_cleanup cfg now requests clientId :
  bucket (cleanup cfg now requests) clientId
  = in_window (now - WINDOW_MS cfg) (bucket requests clientId).
Proof.
  unfold bucket. rewrite cleanup_lookup.
  destruct (requests !! clientId) as [reqs|]; [|reflexivity].
  case_bool_decide as Hlen; [|reflexivity].
  cbn. symmetry. by apply length_zero_iff_nil.
Qed.

(** After a sweep no client is left with an empty bucket: every bucket that
    remains is the non-empty list of the timestamps of the old bucket that
    are still inside the window, in their order. *)
Theorem cleanup_buckets cfg now requests clientId l :
  cleanup cfg now requests !! clientId = Some l ->
  l <> []
  /\ Forall (fun t => now - WINDOW_MS cfg < t) l
  /\ exists reqs, requests !! clientId = Some reqs
                  /\ l = in_window (now - WINDOW_MS cfg) reqs.
Proof.
  rewrite cleanup_lookup.
  destruct (requests !! clientId) as [reqs|]; [|discriminate].
  case_bool_decide as Hlen; [discriminate|]. intros [= <-].
  split; [|split].
  - intros Hnil. rewrite Hnil in Hlen. contradiction.
  - apply Forall_forall. intros t Ht. apply list_elem_of_In in Ht.
    by apply in_window_in in Ht as [_ Ht].
  - exists reqs. split; reflexivity.
Qed.

Lemma cleanup_buckets_witness :
  [20000; 70000] <> []
  /\ Forall (fun t => 65000 - 60000 < t) [20000; 70000].
Proof.
  destruct (cleanup_buckets (Scenario.limits false) 65000
              {["c1" := [0; 20000; 70000]; "c2" := [1; 2]]} "c1" [20000; 70000])
    as (Hne & Hall & _).
  - reflexivity.
  - split; [exact Hne | exact Hall].
Defined.

(** A client whose timestamps have all left the window loses its bucket in
    the sweep, and a client unknown before stays unknown. *)
Theorem cleanup_drops_expired cfg now requests clientId :
  Forall (fun t => t <= now - WINDOW_MS cfg) (bucket requests clientId) ->
  cleanup cfg now requests !! clientId = None.
Proof.
  intros Hold. rewrite cleanup_lookup. unfold bucket in Hold.
  destruct (requests !! clientId) as [reqs|]; [|reflexivity].
  cbn in Hold. rewrite (in_window_none _ _ Hold). reflexivity.
Qed.

Lemma cleanup_drops_expired_witness :
  cleanup (Scenario.limits false) 65000 {["c1" := [0; 20000]; "c2" := [1; 2]]}
    !! "c2" = None.
Proof.
  apply cleanup_drops_expired.
  repeat constructor; vm_compute; discriminate.
Defined.

(** A sweep never changes a decision taken at or after the time of the
    sweep: [check] answers the same with and without it. *)
Theorem cleanup_keeps_decisions cfg swept now clientId requests :
  swept <= now ->
  fst (check cfg now clientId (cleanup cfg swept requests))
  = fst (check cfg now clientId requests).
Proof.
  intros Hle. apply check_decision_kept.
  rewrite bucket_cleanup. apply in_window_nested. lia.
Qed.

Lemma cleanup_keeps_decisions_witness :
  fst (check (Scenario.limits false) 65000 "c1"
         (cleanup (Scenario.limits false) 61000 {["c1" := [0; 20000; 30000]]}))
  = fst (check (Scenario.limits false) 65000 "c1" {["c1" := [0; 20000; 30000]]}).
Proof.
  apply (cleanup_keeps_decisions (Scenario.limits false) 61000 65000 "c1").
  vm_compute. discriminate.
Defined.

(** With the option to skip successful requests, [recordSuccess] after an
    admitted [check] takes the request's timestamp out again: the bucket is
    the pruned bucket from before the request.  Without the option the
    timestamp stays. *)
Theorem recordSuccess_after_check cfg now clientId requests :
  allowed (fst (check cfg now clientId requests)) = true ->
  bucket (recordSuccess cfg clientId (snd (check cfg now clientId requests)))
    clientId
  = if SKIP_SUCCESS cfg
    then in_window (now - WINDOW_MS cfg) (bucket requests clientId)
    else (in_window (now - WINDOW_MS cfg) (bucket requests clientId) ++ [now])%list.
Proof.
  intros Hallowed.
  destruct (check_cases cfg now clientId requests) as [(_ & Hd & _)|(_ & _ & Hs)];
    [congruence|].
  rewrite Hs. apply recordSuccess_inserted.
Qed.

Lemma recordSuccess_after_check_witness :
  bucket (recordSuccess (Scenario.limits true) "c1"
            (snd (check (Scenario.limits true) 61000 "c1" {["c1" := [0; 2000]]})))
    "c1"
  = [2000].
Proof.
  etransitivity.
  - apply (recordSuccess_after_check (Scenario.limits true) 61000 "c1"
             {["c1" := [0; 2000]]}).
    reflexivity.
  - vm_compute. reflexivity.
Defined.

Lemma total_nonempty (requests : store) :
  (forall clientId l, requests !! clientId = Some l -> l <> []) ->
  (size requests <= snd (getStats requests))%nat.
Proof.
  unfold getStats. cbn [snd].
  apply (map_fold_weak_ind
           (fun total (m : store) =>
              (forall clientId l, m !! clientId = Some l -> l <> []) ->
              (size m <= total)%nat)).
  - intros _. rewrite map_size_empty. lia.
  - intros i x m r Hnone IH Hall.
    rewrite map_size_insert_None by exact Hnone.
    assert (Hx : x <> []) by (apply (Hall i); apply lookup_insert_eq).
    assert (Hm : (size m <= r)%nat).
    { apply IH. intros c l Hc. apply (Hall c).
      rewrite lookup_insert_ne; [exact Hc|]. intros ->. congruence. }
    destruct x; [congruence|]. cbn [length]. lia.
Qed.

(** After a sweep the statistics count at least one stored request for
    every active client. *)
Theorem getStats_after_cleanup cfg now requests :
  (fst (getStats (cleanup cfg now requests))
   <= snd (getStats (cleanup cfg now requests)))%nat.
Proof.
  change (fst (getStats (cleanup cfg now requests)))
    with (size (cleanup cfg now requests)).
  apply total_nonempty. intros clientId l Hl.
  rewrite cleanup_lookup in Hl.
  destruct (requests !! clientId) as [reqs|]; [|discriminate].
  case_bool_decide as Hlen; [discriminate|]. injection Hl as <-.
  intros Hnil. rewrite Hnil in Hlen. contradiction.
Qed.

End RateLimiterMore.

(** ** More on the retry loop *)

Section RetryMore.
Import ClaudeWrapper.

Variables (cfg : CLAUDE_CONFIG) (run : Runner) (prompt : string).








End RetryMore.

(** ** More on the extractors and the prompt *)

Section ParseMore.
Import JsString ClaudeWrapper.

(** No white space in front. *)
Lemma trimStart_head s :
  match trimStart s with
  | EmptyString => True
  | String c _ => is_space c = false
  end.
Proof.
  induction s as [|c r IH]; [exact I|].
  cbn [trimStart]. destruct (is_space c) eqn:Hc; [exact IH|exact Hc].
Qed.

Lemma trimStart_fixed u :
  match u with EmptyString => True | String c _ => is_space c = false end ->
  trimStart u = u.
Proof. destruct u as [|c r]; [reflexivity|]. cbn. by intros ->. Qed.

Lemma trimEnd_head u :
  match u with EmptyString => True | String c _ => is_space c = false end ->
  match trimEnd u with
  | EmptyString => True
  | String c _ => is_space c = false
  end.
Proof.
  destruct u as [|c r]; [exact id|]. intros Hc. cbn [trimEnd].
  destruct (trimEnd r); [rewrite Hc|]; exact Hc.
Qed.

Lemma trimEnd_idem s : trimEnd (trimEnd s) = trimEnd s.
Proof.
  induction s as [|c r IH]; [reflexivity|].
  cbn [trimEnd]. destruct (trimEnd r) as [|d t] eqn:Ht.
  - destruct (is_space c) eqn:Hc; [reflexivity|]. cbn. by rewrite Hc.
  - cbn [trimEnd] in *. rewrite IH. reflexivity.
Qed.

Lemma trimStart_idem s : trimStart (trimStart s) = trimStart s.
Proof. apply trimStart_fixed, trimStart_head. Qed.

Lemma trim_idem s : trim (trim s) = trim s.
Proof.
  unfold trim.
  rewrite (trimStart_fixed (trimEnd (trimStart s)))
    by apply trimEnd_head, trimStart_head.
  apply trimEnd_idem.
Qed.

Lemma trim_trimStart s : trim (trimStart s) = trim s.
Proof. unfold trim. by rewrite trimStart_idem. Qed.

Lemma split_lines_nonempty s : split_lines s <> [].
Proof.
  induction s as [|c r IH]; [discriminate|].
  cbn [split_lines]. destruct (Ascii.eqb c LF); [discriminate|].
  destruct (split_lines r); discriminate.
Qed.

(** Splitting a text into lines and joining the lines with newlines gives
    the text back. *)
Theorem join_split_lines s : join_lines (split_lines s) = s.
Proof.
  unfold join_lines. induction s as [|c r IH]; [reflexivity|].
  cbn [split_lines].
  pose proof (split_lines_nonempty r) as Hne.
  destruct (Ascii.eqb_spec c LF) as [->|Hc].
  - destruct (split_lines r) as [|l ls]; [congruence|].
    cbn [String.concat] in *. rewrite IH. reflexivity.
  - destruct (split_lines r) as [|l ls]; [congruence|].
    cbn [String.concat] in *. destruct ls; rewrite <- IH; reflexivity.
Qed.

(** What the extractors return carries no white space at its ends: the
    section, the explanation and every suggestion are trimmed. *)
Theorem extracted_text_is_trimmed output keywords :
  trim (extractSection output keywords) = extractSection output keywords
  /\ trim (extractExplanation output) = extractExplanation output
  /\ Forall (fun s => trim s = s) (extractSuggestions output).
Proof.
  split; [|split].
  - unfold extractSection. destruct (from_keyword _ _); apply trim_idem.
  - apply trim_idem.
  - unfold extractSuggestions. case_bool_decide.
    + unfold list_items. apply Forall_forall. intros s Hs.
      apply list_elem_of_In, in_map_iff in Hs as (line & <- & _).
      apply trim_idem.
    + constructor; [|constructor].
      unfold extractSection. destruct (from_keyword _ _); apply trim_idem.
Qed.

(** The list of suggestions is never empty: without list lines it holds the
    one fallback section.  So a result never carries an empty list. *)
Theorem extractSuggestions_nonempty output action :
  extractSuggestions output <> []
  /\ suggestions (parseOutput output action) <> Some [].
Proof.
  assert (H : extractSuggestions output <> []).
  { unfold extractSuggestions. case_bool_decide as H; [|discriminate].
    intros Hnil. rewrite Hnil in H. cbn in H. lia. }
  split; [exact H|].
  unfold parseOutput.
  destruct (String.eqb action "generate"); [destruct (_ && _ && _); discriminate|].
  destruct (String.eqb action "analyze");
    [destruct (_ && _ && _); cbn; congruence|].
  destruct (String.eqb action "optimize");
    [destruct (_ && _ && _); cbn; unfold extractOptimizations; congruence|].
  destruct (String.eqb action "review");
    [destruct (_ && _ && _); cbn; unfold extractIssues; congruence|].
  destruct (_ && _ && _); discriminate.
Qed.

(** A bullet line gives the rest of the line behind the marker, trimmed. *)
Theorem list_items_bullet (marker sp : ascii) (text : string) :
  marker = "-"%char \/ marker = "*"%char ->
  is_space sp = true ->
  list_items [String marker (String sp text)] = [trim text].
Proof.
  intros Hm Hsp. unfold list_items. cbn [List.filter bullet_line].
  assert (Hb : (Ascii.eqb marker "-" || Ascii.eqb marker "*") = true)
    by (destruct Hm as [-> | ->]; reflexivity).
  rewrite Hb, Hsp. cbn [andb orb List.map strip_marker].
  rewrite Hb, Hsp. cbn [andb orb].
  by rewrite trim_trimStart.
Qed.

Lemma list_items_bullet_witness :
  list_items ["*   use a map  "] = ["use a map"].
Proof.
  apply (list_items_bullet "*" " " "  use a map  "); [right|]; reflexivity.
Defined.

(** A numbered line gives the whole line, number and dot included,
    trimmed. *)
Theorem list_items_numbered (line : string) :
  numbered_line line = true ->
  list_items [line] = [trim line].
Proof.
  intros Hn. unfold list_items. cbn [List.filter].
  rewrite Hn, orb_true_r. cbn [List.map].
  by rewrite (strip_marker_numbered line Hn).
Qed.

Lemma list_items_numbered_witness :
  list_items ["12. cache the result "] = ["12. cache the result"].
Proof. apply (list_items_numbered "12. cache the result "). reflexivity. Defined.

Lemma codeBlocks_no_fence s :
  includes s fence = false -> codeBlocks_from 0 s = [].
Proof.
  induction s as [|c r IH]; [reflexivity|].
  rewrite includes_cons. intros H. apply orb_false_iff in H as [Hp Hi].
  cbn [codeBlocks_from]. unfold match_here. rewrite Hp. exact (IH Hi).
Qed.

(** A text without three backticks in a row yields no code, whatever the
    action. *)
Theorem parseOutput_no_fence output action :
  includes output fence = false ->
  code (parseOutput output action) = None.
Proof.
  intros H.
  assert (Hf : first_block output = None).
  { unfold first_block, codeBlocks. by rewrite codeBlocks_no_fence. }
  unfold parseOutput. rewrite Hf.
  repeat match goal with
         | |- context [String.eqb action ?a] => destruct (String.eqb action a)
         end;
    cbn [code analysis explanation truthy_opt negb andb];
    repeat match goal with
           | |- context [if ?b then _ else _] => destruct b
           end; reflexivity.
Qed.

Lemma parseOutput_no_fence_witness :
  code (parseOutput "use `map` here" "generate") = None.
Proof. apply parseOutput_no_fence. reflexivity. Defined.

(** The result always says something: one of code, analysis and explanation
    is a non-empty text, or the explanation is the raw output. *)
Theorem parseOutput_populated output action :
  truthy_opt (code (parseOutput output action))
  || truthy_opt (analysis (parseOutput output action))
  || truthy_opt (explanation (parseOutput output action)) = true
  \/ explanation (parseOutput output action) = Some output.
Proof.
  unfold parseOutput.
  match goal with
  | |- context [if negb (truthy_opt (code ?r)) && _ && _ then _ else _] =>
      generalize r
  end.
  intros r.
  destruct (truthy_opt (code r)) eqn:Hc; cbn [negb andb orb]; [left; by rewrite Hc|].
  destruct (truthy_opt (analysis r)) eqn:Ha; cbn [negb andb orb];
    [left; by rewrite Hc, Ha|].
  destruct (truthy_opt (explanation r)) eqn:He; cbn [negb andb orb];
    [left; by rewrite Hc, Ha, He|].
  right. reflexivity.
Qed.

Lemma parseOutput_analysis output action :
  analysis (parseOutput output action)
  = if String.eqb action "generate" then None
    else if String.eqb action "analyze" then Some (extractAnalysis output)
    else if String.eqb action "optimize" then None
    else if String.eqb action "review" then Some (extractReview output)
    else None.
Proof.
  unfold parseOutput.
  destruct (String.eqb action "generate"); [destruct (_ && _ && _); reflexivity|].
  destruct (String.eqb action "analyze"); [destruct (_ && _ && _); reflexivity|].
  destruct (String.eqb action "optimize"); [destruct (_ && _ && _); reflexivity|].
  destruct (String.eqb action "review"); destruct (_ && _ && _); reflexivity.
Qed.

Lemma parseOutput_suggestions output action :
  suggestions (parseOutput output action)
  = if String.eqb action "generate" then None
    else if String.eqb action "analyze" then Some (extractSuggestions output)
    else if String.eqb action "optimize" then Some (extractSuggestions output)
    else if String.eqb action "review" then Some (extractSuggestions output)
    else None.
Proof.
  unfold parseOutput.
  destruct (String.eqb action "generate"); [destruct (_ && _ && _); reflexivity|].
  destruct (String.eqb action "analyze"); [destruct (_ && _ && _); reflexivity|].
  destruct (String.eqb action "optimize"); [destruct (_ && _ && _); reflexivity|].
  destruct (String.eqb action "review"); destruct (_ && _ && _); reflexivity.
Qed.

Lemma parseOutput_code_field output action :
  code (parseOutput output action)
  = if String.eqb action "generate" then first_block output
    else if String.eqb action "analyze" then None
    else if String.eqb action "optimize" then first_block output
    else None.
Proof.
  unfold parseOutput.
  destruct (String.eqb action "generate"); [destruct (_ && _ && _); reflexivity|].
  destruct (String.eqb action "analyze"); [destruct (_ && _ && _); reflexivity|].
  destruct (String.eqb action "optimize"); [destruct (_ && _ && _); reflexivity|].
  destruct (String.eqb action "review"); destruct (_ && _ && _); reflexivity.
Qed.

(** Which fields an action fills: analysis under analyze and review only,
    suggestions under analyze, optimize and review only, code under
    generate and optimize at most, an explanation always under generate. *)
Theorem parseOutput_fields output action :
  (is_Some (analysis (parseOutput output action))
   <-> action = "analyze" \/ action = "review")
  /\ (is_Some (suggestions (parseOutput output action))
      <-> action = "analyze" \/ action = "optimize" \/ action = "review")
  /\ (is_Some (code (parseOutput output action))
      -> action = "generate" \/ action = "optimize")
  /\ is_Some (explanation (parseOutput output "generate")).
Proof.
  rewrite parseOutput_analysis, parseOutput_suggestions, parseOutput_code_field.
  split; [|split; [|split]].
  - destruct (String.eqb_spec action "generate") as [->|H1];
      [split; [intros [? [=]] | intros [[=]|[=]]]|].
    destruct (String.eqb_spec action "analyze") as [->|H2]; [split; eauto|].
    destruct (String.eqb_spec action "optimize") as [->|H3];
      [split; [intros [? [=]] | intros [[=]|[=]]]|].
    destruct (String.eqb_spec action "review") as [->|H4]; [split; eauto|].
    split; [intros [? [=]] | tauto].
  - destruct (String.eqb_spec action "generate") as [->|H1];
      [split; [intros [? [=]] | intros [[=]|[[=]|[=]]]]|].
    destruct (String.eqb_spec action "analyze") as [->|H2]; [split; eauto|].
    destruct (String.eqb_spec action "optimize") as [->|H3]; [split; eauto|].
    destruct (String.eqb_spec action "review") as [->|H4]; [split; eauto|].
    split; [intros [? [=]] | tauto].
  - destruct (String.eqb_spec action "generate") as [->|H1]; [auto|].
    destruct (String.eqb_spec action "analyze") as [->|H2]; [intros [? [=]]|].
    destruct (String.eqb_spec action "optimize") as [->|H3]; [auto|].
    intros [? [=]].
  - unfold parseOutput. cbn [String.eqb Ascii.eqb Bool.eqb]. cbv iota.
    destruct (_ && _ && _); cbn; eauto.
Qed.

End ParseMore.

Lemma parseOutput_fields_witness :
  "optimize" = "generate" \/ "optimize" = "optimize".
Proof.
  apply (proj1 (proj2 (proj2 (parseOutput_fields
                                (ClaudeWrapper.fenced "" "" "x" "") "optimize")))).
  vm_compute. eauto.
Defined.

(** ** The prompt *)

Section PromptFacts.
Import JsString ClaudeWrapper.

Lemma string_app_assoc (a b c : string) : (a ++ b) ++ c = a ++ b ++ c.
Proof. induction a as [|x a IH]; [reflexivity|]. rewrite !app_cons. by rewrite IH. Qed.

Lemma string_app_nil_r (a : string) : a ++ "" = a.
Proof. induction a as [|x a IH]; [reflexivity|]. rewrite app_cons. by rewrite IH. Qed.

(** The user's prompt reaches the subprocess unaltered: it stands in the
    formatted prompt between the metadata lines and the instructions, and
    with neither of them the formatted prompt is the prompt itself. *)
Theorem formatPrompt_keeps_prompt (o : ClaudeExecutionOptions) :
  (exists pre post, formatPrompt o = pre ++ prompt o ++ post)
  /\ (truthy_opt (language o) = false ->
      truthy_opt (framework o) = false ->
      options o = Some no_flags ->
      formatPrompt o = prompt o).
Proof.
  unfold formatPrompt. split.
  - do 2 match goal with
         | |- context [bool_decide ?P] => destruct (bool_decide P)
         end;
      repeat match goal with
             | |- context [join_lines ?m] =>
                 let j := fresh "j" in
                 generalize (join_lines m); intros j
             end.
    + exists (j ++ nl ++ nl), (nl ++ nl ++ j0).
      by rewrite !string_app_assoc.
    + exists "", (nl ++ nl ++ j). reflexivity.
    + exists (j ++ nl ++ nl), "".
      by rewrite !string_app_assoc, string_app_nil_r.
    + exists "", "". by rewrite string_app_nil_r.
  - intros -> -> ->. reflexivity.
Qed.

Lemma formatPrompt_keeps_prompt_witness :
  formatPrompt {| action := "review"; prompt := "x = 1"; language := Some "";
                  framework := None; options := Some no_flags |}
  = "x = 1".
Proof.
  apply (proj2 (formatPrompt_keeps_prompt
                  {| action := "review"; prompt := "x = 1"; language := Some "";
                     framework := None; options := Some no_flags |}));
    reflexivity.
Defined.

End PromptFacts.

(** ** More on authentication *)

Section AuthMore.
Import JsString Auth.

Lemma prefix_split p s :
  String.prefix p s = true -> s = p ++ substring_from (String.length p) s.
Proof.
  revert s. induction p as [|a p IH]; intros s H; [reflexivity|].
  destruct s as [|b s]; [discriminate|].
  rewrite prefix_cons in H. destruct (ascii_dec a b) as [->|]; [|discriminate].
  rewrite app_cons. cbn [String.length substring_from]. f_equal. by apply IH.
Qed.

Lemma truthy_nonempty s : truthy s = true <-> s <> "".
Proof.
  unfold truthy. destruct (String.eqb_spec s ""); cbn; split; intros; congruence.
Qed.

(** A request is accepted only with the exact credential: the
    Authorization header is [Bearer] followed by the configured secret,
    which is not empty, whatever the other headers are; an Origin or a
    Referer, when sent, has passed the allow-list; and the client
    identity is the one derived from the request. *)
Theorem validateAuth_valid (cfg : SECURITY) (request : Incoming) :
  valid (validateAuth cfg request) = true ->
  headers request !! "authorization" = Some ("Bearer " ++ API_SECRET cfg)
  /\ API_SECRET cfg <> ""
  /\ (forall o, headers request !! "origin" = Some o ->
                o = "" \/ origin_allowed cfg o = true)
  /\ (forall r, headers request !! "referer" = Some r ->
                r = ""
                \/ exists u, Url.parse r = Some u
                             /\ origin_allowed cfg
                                  (Url.protocol u ++ "//" ++ Url.hostname u)
                                = true)
  /\ validateAuth cfg request
     = {| valid := true;
          clientId := Some (generateClientId request);
          message := Some "Authentication successful" |}.
Proof.
  unfold validateAuth.
  destruct (headers request !! "authorization") as [h|] eqn:Hh;
    cbn [truthy_opt default from_option id negb orb]; [|discriminate].
  destruct (truthy h) eqn:Hth; cbn [negb orb]; [|discriminate].
  destruct (startsWith h "Bearer ") eqn:Hst; cbn [negb orb]; [|discriminate].
  destruct (truthy (substring_from 7 h)) eqn:Hk; cbn [negb orb]; [|discriminate].
  destruct (String.eqb_spec (substring_from 7 h) (API_SECRET cfg)) as [Hkey|];
    cbn [negb]; [|discriminate].
  assert (Hhdr : h = "Bearer " ++ API_SECRET cfg).
  { rewrite <- Hkey. exact (prefix_split "Bearer " h Hst). }
  assert (Hsecret : API_SECRET cfg <> "").
  { rewrite <- Hkey. by apply truthy_nonempty. }
  destruct (headers request !! "origin") as [o|] eqn:Ho;
    destruct (headers request !! "referer") as [r|] eqn:Hr;
    cbn [truthy_opt default from_option id andb].
  all: try (destruct (truthy o) eqn:Hto; cbn [andb];
            [destruct (origin_allowed cfg o) eqn:Hoa; cbn [negb]; [|discriminate]|]).
  all: try (destruct (truthy r) eqn:Htr;
            [destruct (Url.parse r) as [u|] eqn:Hu; [|discriminate];
             destruct (origin_allowed cfg (Url.protocol u ++ "//" ++ Url.hostname u))
               eqn:Hra; cbn [negb]; [|discriminate]|]).
  all: intros _; subst h; split; [reflexivity|]; split; [exact Hsecret|];
    split; [intros o' [= <-] || intros o' [=] | ];
    try (split; [intros r' [= <-] || intros r' [=] | reflexivity]).
  all: try (right; assumption).
  all: try (left; destruct (String.eqb_spec o ""); [assumption|];
            exfalso; apply truthy_nonempty in n; congruence).
  all: try (right; eexists; split; [eassumption|assumption]).
  all: try (left; destruct (String.eqb_spec r ""); [assumption|];
            exfalso; apply truthy_nonempty in n; congruence).
Qed.

Lemma validateAuth_valid_witness :
  headers Scenario.authorized !! "authorization"
  = Some ("Bearer " ++ API_SECRET Scenario.security).
Proof.
  apply (validateAuth_valid Scenario.security Scenario.authorized).
  reflexivity.
Defined.

End AuthMore.

(** ** Validation of the body *)

Section ValidateFacts.
Import JsString Route.

Lemma one_of_string names v :
  one_of names v = true -> exists s, v = Some (JStr s) /\ In s names.
Proof.
  destruct v as [[]|]; try discriminate. cbn [one_of]. intros H.
  apply existsb_exists in H as (x & Hin & Hx).
  apply String.eqb_eq in Hx as ->. eauto.
Qed.

(** A body that passes validation has an action that is one of the four
    names and a prompt that is a text with something other than white space
    in it and no longer than the limit; these two are what the wrapper is
    called with; and language and framework are texts unless they are
    falsy. *)
Theorem validateRequest_valid (maxPromptLength : Z) (b : json) :
  valid (validateRequest maxPromptLength b) = true ->
  exists a p,
    get b "action" = Some (JStr a)
    /\ In a ["generate"; "analyze"; "optimize"; "review"]
    /\ get b "prompt" = Some (JStr p)
    /\ trim p <> ""
    /\ Z.of_nat (String.length p) <= maxPromptLength
    /\ ClaudeWrapper.action (to_options b) = a
    /\ ClaudeWrapper.prompt (to_options b) = p
    /\ (truthy_json (get b "language") = true -> is_string (get b "language") = true)
    /\ (truthy_json (get b "framework") = true -> is_string (get b "framework") = true).
Proof.
  unfold validateRequest.
  destruct (negb (typeof_object b) || is_null b); [discriminate|].
  destruct (truthy_json (get b "action")); cbn [negb orb]; [|discriminate].
  destruct (one_of _ (get b "action")) eqn:Ha; cbn [negb]; [|discriminate].
  apply one_of_string in Ha as (a & Ha & Hin).
  destruct (truthy_json (get b "prompt")); cbn [negb orb]; [|discriminate].
  destruct (get b "prompt") as [[| | |p| |]|] eqn:Hp; cbn [is_string negb];
    try discriminate.
  cbn [as_string default from_option id].
  case_bool_decide as Htrim; [discriminate|].
  destruct (maxPromptLength <? Z.of_nat (String.length p))%Z eqn:Hlen;
    [discriminate|]. apply Z.ltb_ge in Hlen.
  destruct (truthy_json (get b "language") && negb (is_string (get b "language")))
    eqn:Hl; [discriminate|].
  destruct (truthy_json (get b "framework") && negb (is_string (get b "framework")))
    eqn:Hf; [discriminate|].
  intros _. exists a, p.
  split; [exact Ha|]. split; [exact Hin|]. split; [reflexivity|].
  split; [intros E; rewrite E in Htrim; apply Htrim; reflexivity|].
  split; [exact Hlen|].
  unfold to_options. cbn [ClaudeWrapper.action ClaudeWrapper.prompt].
  rewrite Ha, Hp. split; [reflexivity|]. split; [reflexivity|].
  split.
  - intros Ht. rewrite Ht in Hl. by destruct (is_string (get b "language")).
  - intros Ht. rewrite Ht in Hf. by destruct (is_string (get b "framework")).
Qed.

Lemma validateRequest_valid_witness :
  exists a p,
    get Scenario.generate_body "action" = Some (JStr a)
    /\ In a ["generate"; "analyze"; "optimize"; "review"]
    /\ get Scenario.generate_body "prompt" = Some (JStr p)
    /\ trim p <> "".
Proof.
  destruct (validateRequest_valid 10000 Scenario.generate_body)
    as (a & p & H1 & H2 & H3 & H4 & _).
  - reflexivity.
  - exists a, p. auto.
Defined.

(** The options of a body that passes validation: an object or an array;
    the two switches booleans when present; [maxTokens], when present, a
    number from 100 to 8192; a [codeStyle] that is a text is empty, modern
    or legacy. *)
Theorem validateRequest_options (maxPromptLength : Z) (b o : json) :
  valid (validateRequest maxPromptLength b) = true ->
  get b "options" = Some o ->
  truthy_json (Some o) = true ->
  typeof_object o = true
  /\ (forall v, get o "includeTests" = Some v -> exists t, v = JBool t)
  /\ (forall v, get o "includeComments" = Some v -> exists t, v = JBool t)
  /\ (forall v, get o "maxTokens" = Some v ->
                exists q, v = JNum q /\ (100 <= q)%Q /\ (q <= 8192)%Q)
  /\ (forall s, get o "codeStyle" = Some (JStr s) ->
                s = "" \/ s = "modern" \/ s = "legacy").
Proof.
  intros Hvalid Ho Ht. revert Hvalid. unfold validateRequest.
  destruct (negb (typeof_object b) || is_null b); [discriminate|].
  destruct (negb _ || negb _); [discriminate|].
  destruct (negb _ || negb _); [discriminate|].
  case_bool_decide; [discriminate|].
  destruct (_ <? _)%Z; [discriminate|].
  destruct (_ && _); [discriminate|].
  destruct (_ && _); [discriminate|].
  rewrite Ho, Ht. cbn [default from_option id].
  unfold validateOptions.
  destruct (typeof_object o); cbn [negb]; [|discriminate].
  destruct (get o "includeTests") as [it|] eqn:Hit; cbn [defined andb].
  1: destruct it; cbn [is_boolean negb]; try discriminate.
  all: destruct (get o "includeComments") as [ic|] eqn:Hic; cbn [defined andb].
  all: try (destruct ic; cbn [is_boolean negb]; try discriminate).
  all: destruct (truthy_json (get o "codeStyle") && is_string (get o "codeStyle")
                 && negb (one_of ["modern"; "legacy"] (get o "codeStyle")))
         eqn:Hcs; [discriminate|].
  all: destruct (get o "maxTokens") as [[| |q| | |]|] eqn:Hmt; try discriminate.
  all: try (destruct (Qle_bool 100 q && Qle_bool q 8192) eqn:Hq; [|discriminate];
            apply andb_true_iff in Hq as [Hq1 Hq2];
            apply Qle_bool_iff in Hq1, Hq2).
  all: intros _; split; [reflexivity|].
  all: split; [intros v [= <-] || intros v [=]; eauto|].
  all: split; [intros v [= <-] || intros v [=]; eauto|].
  all: split; [intros v [= <-] || intros v [=]; eauto|].
  all: intros s Hs; rewrite Hs in Hcs; cbn [truthy_json is_string one_of existsb] in Hcs;
    rewrite andb_true_r in Hcs;
    destruct (String.eqb_spec s ""); [left; assumption|right];
    assert (Htr : truthy s = true) by (unfold truthy; by destruct (String.eqb_spec s ""));
    rewrite Htr in Hcs; cbn [andb] in Hcs;
    rewrite orb_false_r in Hcs;
    apply negb_false_iff, orb_true_iff in Hcs as [E|E];
    apply String.eqb_eq in E; auto.
Qed.

Lemma validateRequest_options_witness :
  exists q, JNum 500 = JNum q /\ (100 <= q)%Q /\ (q <= 8192)%Q.
Proof.
  destruct (validateRequest_options 10000
              (JObj [("action", JStr "review"); ("prompt", JStr "x = 1");
                     ("options", JObj [("maxTokens", JNum 500)])])
              (JObj [("maxTokens", JNum 500)]))
    as (_ & _ & _ & H & _); [reflexivity..|].
  apply H. reflexivity.
Defined.

End ValidateFacts.

(** ** More on the handler *)

Section PostMore.
Import Route.

Variables (cfg : Settings) (w : World) (request : NextRequest)
          (requests : RateLimiter.store).

(** The ways through the handler. *)
Lemma POST_cases resp requests' evs :
  POST cfg w request requests = Some (resp, requests', evs) ->
  (Auth.valid (authResult_of cfg request) = false
   /\ resp = failure STATUS_UNAUTHORIZED UNAUTHORIZED
               (JsString.or_else (Auth.message (authResult_of cfg request))
                  "Invalid authentication")
               (sessionId_of w request)
   /\ requests' = requests /\ evs = [])
  \/
  (Auth.valid (authResult_of cfg request) = true
   /\ RateLimiter.allowed (fst (rateLimit_of cfg w request requests)) = false
   /\ resp = failure TOO_MANY_REQUESTS RATE_LIMIT_EXCEEDED
               (rate_message (fst (rateLimit_of cfg w request requests)))
               (sessionId_of w request)
   /\ requests' = requests /\ evs = [])
  \/
  (Auth.valid (authResult_of cfg request) = true
   /\ RateLimiter.allowed (fst (rateLimit_of cfg w request requests)) = true
   /\ requests' = snd (rateLimit_of cfg w request requests)
   /\ ((exists m, body request = inr m
                  /\ resp = caught cfg m (sessionId_of w request) /\ evs = [])
       \/ (exists b, body request = inl b
                     /\ valid (validateRequest (MAX_PROMPT_LENGTH cfg) b) = false
                     /\ resp = failure BAD_REQUEST INVALID_REQUEST
                                 (JsString.or_else
                                    (message (validateRequest (MAX_PROMPT_LENGTH cfg) b))
                                    "Invalid request format")
                                 (sessionId_of w request)
                     /\ evs = [])
       \/ (exists b m, body request = inl b
                       /\ valid (validateRequest (MAX_PROMPT_LENGTH cfg) b) = true
                       /\ ClaudeWrapper.execute (claude_config cfg) (staging w)
                            (run w) (to_options b) = Some (inr m, evs)
                       /\ resp = caught cfg m (sessionId_of w request))))
  \/
  (Auth.valid (authResult_of cfg request) = true
   /\ RateLimiter.allowed (fst (rateLimit_of cfg w request requests)) = true
   /\ exists b result,
        body request = inl b
        /\ valid (validateRequest (MAX_PROMPT_LENGTH cfg) b) = true
        /\ ClaudeWrapper.execute (claude_config cfg) (staging w) (run w)
             (to_options b) = Some (inl result, evs)
        /\ resp = succeed result (sessionId_of w request)
        /\ requests' = RateLimiter.recordSuccess (rate_limits cfg)
                         (clientId_of cfg request)
                         (snd (rateLimit_of cfg w request requests))).
Proof.
  destruct (Auth.valid (authResult_of cfg request)) eqn:Hv.
  2: { rewrite (POST_unauthorized cfg w request requests Hv).
       intros [= <- <- <-]. left. auto. }
  destruct (RateLimiter.allowed (fst (rateLimit_of cfg w request requests))) eqn:Ha.
  2: { rewrite (POST_rate_limited cfg w request requests Hv Ha).
       intros [= <- <- <-]. right. left. auto. }
  rewrite (POST_admitted cfg w request requests Hv Ha).
  destruct (body request) as [b|m] eqn:Hb.
  2: { intros [= <- <- <-]. right. right. left.
       split; [reflexivity|]. split; [reflexivity|]. split; [reflexivity|].
       left. eauto. }
  destruct (valid (validateRequest (MAX_PROMPT_LENGTH cfg) b)) eqn:Hgood;
    cbn [negb].
  2: { intros [= <- <- <-]. right. right. left.
       split; [reflexivity|]. split; [reflexivity|]. split; [reflexivity|].
       right. left. exists b. rewrite Hgood. auto. }
  destruct (ClaudeWrapper.execute _ _ _ _) as [[[result|m] evs0]|] eqn:He;
    [| |discriminate].
  - intros [= <- <- <-]. right. right. right.
    split; [reflexivity|]. split; [reflexivity|]. exists b, result. auto.
  - intros [= <- <- <-]. right. right. left.
    split; [reflexivity|]. split; [reflexivity|]. split; [reflexivity|].
    right. right. exists b, m. auto.
Qed.

(** Every response has one shape: either success with status OK, a result
    and no error, or failure with no result and an error whose code goes
    with the status (401, 429, 400 or 500); and it carries the session
    identifier of the request, the caller's own when one was sent. *)
Theorem POST_envelope resp requests' evs :
  POST cfg w request requests = Some (resp, requests', evs) ->
  sessionId resp = sessionId_of w request
  /\ ((success resp = true /\ status resp = OK /\ error resp = None
       /\ is_Some (data resp))
      \/ (success resp = false /\ data resp = None
          /\ exists m,
               (status resp = STATUS_UNAUTHORIZED
                /\ error resp = Some {| code := UNAUTHORIZED; error_message := m |})
               \/ (status resp = TOO_MANY_REQUESTS
                   /\ error resp = Some {| code := RATE_LIMIT_EXCEEDED;
                                           error_message := m |})
               \/ (status resp = BAD_REQUEST
                   /\ error resp = Some {| code := INVALID_REQUEST;
                                           error_message := m |})
               \/ (status resp = STATUS_INTERNAL_SERVER_ERROR
                   /\ error resp = Some {| code := INTERNAL_SERVER_ERROR;
                                           error_message := m |}))).
Proof.
  intros H. apply POST_cases in H.
  destruct H as [(_ & -> & _)|[(_ & _ & -> & _)|[(_ & _ & _ & H)|(_ & _ & b & r & _ & _ & _ & -> & _)]]].
  - split; [reflexivity|]. right. cbn. eauto 10.
  - split; [reflexivity|]. right. cbn. eauto 10.
  - destruct H as [(m & _ & -> & _)|[(b & _ & _ & -> & _)|(b & m & _ & _ & _ & ->)]];
      (split; [reflexivity|]); right; cbn; eauto 10.
  - split; [reflexivity|]. left. cbn. eauto.
Qed.

(** A child process is started only for a request that has passed
    authentication, the limiter and validation, and whose prompt file was
    staged. *)
Theorem POST_spawn_gated resp requests' evs :
  POST cfg w request requests = Some (resp, requests', evs) ->
  evs <> [] ->
  Auth.valid (authResult_of cfg request) = true
  /\ RateLimiter.allowed (fst (rateLimit_of cfg w request requests)) = true
  /\ staging w = None
  /\ exists b, body request = inl b
               /\ valid (validateRequest (MAX_PROMPT_LENGTH cfg) b) = true.
Proof.
  intros H Hevs. apply POST_cases in H.
  assert (Hst : forall o r,
             ClaudeWrapper.execute (claude_config cfg) (staging w) (run w) o
             = Some (r, evs) -> staging w = None).
  { intros o r. unfold ClaudeWrapper.execute.
    destruct (staging w); [|reflexivity]. intros [= _ E]. congruence. }
  destruct H as [(_ & _ & _ & E)|[(_ & _ & _ & _ & E)|[(Hv & Ha & _ & H)|(Hv & Ha & b & r & Hb & Hg & He & _)]]];
    try congruence.
  - destruct H as [(m & _ & _ & E)|[(b & _ & _ & _ & E)|(b & m & Hb & Hg & He & _)]];
      try congruence.
    eauto 10.
  - eauto 10.
Qed.

(** Outside development a response with status 500 never shows what went
    wrong: its message is the fixed one. *)
Theorem POST_production_message resp requests' evs :
  POST cfg w request requests = Some (resp, requests', evs) ->
  development cfg = false ->
  status resp = STATUS_INTERNAL_SERVER_ERROR ->
  error resp = Some {| code := INTERNAL_SERVER_ERROR;
                       error_message := "An unexpected error occurred" |}.
Proof.
  intros H Hdev. apply POST_cases in H.
  destruct H as [(_ & -> & _)|[(_ & _ & -> & _)|[(_ & _ & _ & H)|(_ & _ & b & r & _ & _ & _ & -> & _)]]];
    try discriminate.
  destruct H as [(m & _ & -> & _)|[(b & _ & _ & -> & _)|(b & m & _ & _ & _ & ->)]];
    try discriminate; intros _; unfold caught; rewrite Hdev; reflexivity.
Qed.

(** A request changes no bucket but that of its own client. *)
Theorem POST_other_clients resp requests' evs other :
  POST cfg w request requests = Some (resp, requests', evs) ->
  other <> clientId_of cfg request ->
  requests' !! other = requests !! other.
Proof.
  intros H Hne. apply POST_cases in H.
  assert (Hchk : snd (rateLimit_of cfg w request requests) !! other
                 = requests !! other).
  { unfold rateLimit_of.
    destruct (check_cases (rate_limits cfg) (now w) (clientId_of cfg request) requests)
      as [(_ & _ & ->)|(_ & _ & ->)]; [reflexivity|].
    apply lookup_insert_ne. congruence. }
  destruct H as [(_ & _ & -> & _)|[(_ & _ & _ & -> & _)|[(_ & _ & -> & _)|(_ & _ & b & r & _ & _ & _ & _ & ->)]]];
    try reflexivity; try exact Hchk.
  rewrite recordSuccess_other by exact Hne. exact Hchk.
Qed.


End PostMore.

Lemma POST_envelope_witness :
  exists resp requests' evs,
    Route.POST (Scenario.settings false) (Scenario.world (Scenario.flaky "ok"))
      (Scenario.request Scenario.authorized Scenario.generate_body) ∅
    = Some (resp, requests', evs)
    /\ Route.sessionId resp = "sess_5_abc".
Proof.
  eexists _, _, _. split; [reflexivity|].
  refine (proj1 (POST_envelope (Scenario.settings false)
                   (Scenario.world (Scenario.flaky "ok"))
                   (Scenario.request Scenario.authorized Scenario.generate_body) ∅
                   _ _ _ _)).
  reflexivity.
Defined.

Lemma POST_spawn_gated_witness :
  Route.staging (Scenario.world Scenario.hanging) = None
  /\ exists b, Route.body (Scenario.request Scenario.authorized
                             Scenario.generate_body) = inl b.
Proof.
  edestruct (POST_spawn_gated (Scenario.settings false)
               (Scenario.world Scenario.hanging)
               (Scenario.request Scenario.authorized Scenario.generate_body) ∅)
    as (_ & _ & Hs & b & Hb & _).
  - reflexivity.
  - discriminate.
  - split; [exact Hs | exists b; exact Hb].
Defined.

Lemma POST_production_message_witness :
  exists resp requests' evs,
    Route.POST (Scenario.settings false) (Scenario.world Scenario.hanging)
      (Scenario.request Scenario.authorized Scenario.generate_body) ∅
    = Some (resp, requests', evs)
    /\ Route.error resp
       = Some {| Route.code := Route.INTERNAL_SERVER_ERROR;
                 Route.error_message := "An unexpected error occurred" |}.
Proof.
  eexists _, _, _. split; [reflexivity|].
  refine (POST_production_message (Scenario.settings false)
            (Scenario.world Scenario.hanging)
            (Scenario.request Scenario.authorized Scenario.generate_body) ∅
            _ _ _ _ _ _); reflexivity.
Defined.

Lemma POST_other_clients_witness :
  exists resp requests' evs,
    Route.POST (Scenario.settings false) (Scenario.world Scenario.hanging)
      (Scenario.request Scenario.authorized Scenario.shapeless_body)
      {["someone" := [1; 2]]}
    = Some (resp, requests', evs)
    /\ requests' !! "someone" = ({["someone" := [1; 2]]} : RateLimiter.store) !! "someone".
Proof.
  eexists _, _, _. split; [reflexivity|].
  refine (POST_other_clients (Scenario.settings false)
            (Scenario.world Scenario.hanging)
            (Scenario.request Scenario.authorized Scenario.shapeless_body)
            {["someone" := [1; 2]]} _ _ _ "someone" _ _).
  - reflexivity.
  - vm_compute. discriminate.
Defined.

